(** * The rate limiter of [dev/install/sct_changelog.py]

    A shallow embedding of the class [RateLimiter] (lines 23-43 of the
    script) and of the primitives it touches: [time.time], [time.sleep],
    [logging.info], [collections.deque] and the wrapped operation.

    Conventions of the model.
    - Instants and durations are exact integers, counted in milliseconds
      (the resolution of the [%.3f] directive of the log message): the
      [period] of ten seconds passed at line 46 is [10000].  The rounding
      of binary floating point is not modelled.
    - The clock is a component of the world.  It moves when the limiter
      sleeps, while the wrapped operation runs, and between two calls
      (the caller's own delay, which may be negative to model a wall
      clock that is set back).  Reading the clock takes no time, and
      [time.sleep dt] lasts exactly [dt].
    - A Python exception leaves the mutations made before it in place, so
      a computation returns its outcome together with the final state,
      also when the outcome is an exception.
    - Each primitive with an effect leaves an event in a trace, in
      program order. *)

From Stdlib Require Import ZArith List String Ascii Bool Lia Sorted.
From Stdlib Require Import DecimalString Permutation.
Import ListNotations.
Local Open Scope string_scope.
Local Open Scope list_scope.
Local Open Scope Z_scope.

Set Implicit Arguments.

(** ** [logging]: records, and the [%]-formatting of their message *)

Module Logging.

Inductive Level := DEBUG | INFO | WARNING | ERROR | CRITICAL.

(** What [logging.info(msg, *args)] hands to the handlers: the level,
    the template and its arguments; [getMessage] merges them. *)
Record LogRecord := { levelname : Level; msg : string; args : list Z }.

Definition digits (n : Z) : string :=
  NilZero.string_of_uint (N.to_uint (Z.to_N n)).

Definition digit (n : Z) : string := digits (n mod 10).

(** [%.3f] applied to a number of seconds held as [ms] milliseconds. *)
Definition format_3f (ms : Z) : string :=
  let a := Z.abs ms in
  let sign := if ms <? 0 then "-" else "" in
  String.append sign
    (String.append (digits (a / 1000))
       (String.append "."
          (String.append (digit (a / 100))
             (String.append (digit (a / 10)) (digit a))))).

(** [template % args], for templates whose only directive is [%.3f].  A
    directive left without argument is copied as it is. *)
Fixpoint percent (template : string) (args : list Z) : string :=
  match template with
  | String c1 (String c2 (String c3 (String c4 rest)) as tl) =>
      if (Ascii.eqb c1 "%" && Ascii.eqb c2 "." && Ascii.eqb c3 "3"
          && Ascii.eqb c4 "f")%bool
      then match args with
           | a :: args' => String.append (format_3f a) (percent rest args')
           | [] => String c1 (percent tl args)
           end
      else String c1 (percent tl args)
  | String c tl => String c (percent tl args)
  | EmptyString => EmptyString
  end.

Definition getMessage (r : LogRecord) : string := percent (msg r) (args r).

(** The last character of a line, if it has one. *)
Fixpoint last_char (s : string) : option ascii :=
  match s with
  | EmptyString => None
  | String c EmptyString => Some c
  | String _ rest => last_char rest
  end.

End Logging.
Import Logging.

(** ** Outcomes, worlds, events *)

(** The exceptions in play: the two that the limiter's own primitives can
    raise, and whatever the wrapped operation raises ([Failure]). *)
Inductive exn (E : Type) :=
| IndexError (m : string)
| ValueError (m : string)
| Failure (e : E).
Arguments IndexError {E} m.
Arguments ValueError {E} m.
Arguments Failure {E} e.

Inductive result (E T : Type) :=
| Ok (x : T)
| Raise (e : exn E).
Arguments Ok {E T} x.
Arguments Raise {E T} e.

(** The world outside the limiter: the clock, and the state [X] of
    whatever the wrapped operation talks to. *)
Record World (X : Type) := { clock : Z; ext : X }.

Inductive event (A : Type) :=
| Retired (r : Z)          (* [self._requests.popleft()] returned [r] *)
| Logged (l : LogRecord)   (* [logging.info(...)] *)
| Slept (dt : Z)           (* [time.sleep(dt)] *)
| Recorded (t : Z)         (* [self._requests.append(t)] *)
| Called (a : A).          (* [self._get] applied to [a] *)
Arguments Retired {A} r.
Arguments Logged {A} l.
Arguments Slept {A} dt.
Arguments Recorded {A} t.
Arguments Called {A} a.

Section Limiter.

(** [A]: argument packs ([args] and [kw] together); [R]: values returned
    by the wrapped operation; [E]: its exceptions; [X]: its external
    state. *)
Variables A R E X : Type.

Definition operation := A -> World X -> result E R * World X.

(** ** The class *)

Record RateLimiter := {
  _count : Z;
  _period : Z;
  _requests : list Z;       (* the deque, oldest record first *)
  _get : operation
}.

(** Lines 24-28. *)
Definition __init__ (get : operation) (count period : Z) : RateLimiter :=
  {| _count := count; _period := period; _requests := []; _get := get |}.

(** The state a method runs in: the object and the world. *)
Record St := { self : RateLimiter; world : World X }.

Definition M (T : Type) := St -> result E T * list (event A) * St.

Definition ret {T} (x : T) : M T := fun s => (Ok x, [], s).

Definition raise {T} (e : exn E) : M T := fun s => (Raise e, [], s).

Definition bind {T U} (m : M T) (k : T -> M U) : M U :=
  fun s =>
    match m s with
    | (Ok x, tr, s1) =>
        match k x s1 with
        | (o, tr', s2) => (o, tr ++ tr', s2)
        end
    | (Raise e, tr, s1) => (Raise e, tr, s1)
    end.

Notation "x <- m ;; k" := (bind m (fun x => k))
  (at level 61, m at next level, right associativity).
Notation "m ;; k" := (bind m (fun _ => k))
  (at level 61, right associativity).

(** ** Primitives *)

Definition set_clock (t : Z) (s : St) : St :=
  {| self := self s; world := {| clock := t; ext := ext (world s) |} |}.

Definition set_requests (q : list Z) (s : St) : St :=
  {| self := {| _count := _count (self s); _period := _period (self s);
                _requests := q; _get := _get (self s) |};
     world := world s |}.

(** [time.time()] *)
Definition time_time : M Z := fun s => (Ok (clock (world s)), [], s).

(** [time.sleep(dt)]: refuses a negative length, and otherwise returns
    once [dt] has elapsed. *)
Definition time_sleep (dt : Z) : M unit :=
  fun s =>
    if dt <? 0
    then (Raise (ValueError "sleep length must be non-negative"), [], s)
    else (Ok tt, [Slept dt], set_clock (clock (world s) + dt) s).

(** [logging.info(template, *args)] *)
Definition logging_info (template : string) (args : list Z) : M unit :=
  fun s =>
    (Ok tt,
     [Logged {| levelname := INFO; msg := template; args := args |}], s).

(** [self._count], [self._period], [len(self._requests)] *)
Definition self_count : M Z := fun s => (Ok (_count (self s)), [], s).

Definition self_period : M Z := fun s => (Ok (_period (self s)), [], s).

Definition len_requests : M Z :=
  fun s => (Ok (Z.of_nat (List.length (_requests (self s)))), [], s).

(** [self._requests.append(t)] *)
Definition requests_append (t : Z) : M unit :=
  fun s => (Ok tt, [Recorded t], set_requests (_requests (self s) ++ [t]) s).

(** [self._requests.popleft()] *)
Definition requests_popleft : M Z :=
  fun s =>
    match _requests (self s) with
    | [] => (Raise (IndexError "pop from an empty deque"), [], s)
    | r :: q => (Ok r, [Retired r], set_requests q s)
    end.

(** [self._get] applied to the arguments: the wrapped operation runs in
    the world as it is now; its outcome, value or exception, is the
    outcome. *)
Definition self_get (a : A) : M R :=
  fun s =>
    let (o, w) := _get (self s) a (world s) in
    (o, [Called a], {| self := self s; world := w |}).

(** ** [RateLimiter.get], lines 30-43 *)

Definition get (a : A) : M R :=
  n <- len_requests ;;
  count <- self_count ;;
  if n <? count then
    t <- time_time ;;
    requests_append t ;;
    self_get a
  else
    now <- time_time ;;
    r <- requests_popleft ;;
    period <- self_period ;;
    (if now <? r + period then
       let dt := r + period - now in
       logging_info "Waiting %.3fs so as to not go over the API rate limit"
                    [dt] ;;
       time_sleep dt
     else ret tt) ;;
    t <- time_time ;;
    requests_append t ;;
    self_get a.

(** ** Sequences of calls *)

(** What is seen of one call: the instant it entered [get], its
    arguments, the deque as it found it, what [get] did and how it ended. *)
Record Obs := {
  arrival : Z;
  argument : A;
  pending : list Z;
  trace : list (event A);
  outcome : result E R
}.

(** The caller lets [d] elapse (a negative [d]: the clock was set back). *)
Definition elapse (d : Z) (s : St) : St := set_clock (clock (world s) + d) s.

(** A caller issuing the calls one after the other, each after a delay
    of its own, and going on whatever the outcome. *)
Fixpoint run (calls : list (Z * A)) (s : St) : list Obs * St :=
  match calls with
  | [] => ([], s)
  | (d, a) :: rest =>
      let s0 := elapse d s in
      match get a s0 with
      | (o, tr, s1) =>
          let (os, s2) := run rest s1 in
          ({| arrival := clock (world s0); argument := a;
              pending := _requests (self s0); trace := tr; outcome := o |}
             :: os, s2)
      end
  end.

(** The observation of the call [a] issued [d] after the state [s]. *)
Definition observe (d : Z) (a : A) (s : St) : Obs :=
  {| arrival := clock (world s) + d; argument := a;
     pending := _requests (self s);
     trace := snd (fst (get a (elapse d s)));
     outcome := fst (fst (get a (elapse d s))) |}.

(** A limiter just constructed, in a given world. *)
Definition boot (get : operation) (count period : Z) (w : World X) : St :=
  {| self := __init__ get count period; world := w |}.

(** ** Reading traces *)

Definition slept (tr : list (event A)) : list Z :=
  flat_map (fun e => match e with Slept dt => [dt] | _ => [] end) tr.

Definition retired (tr : list (event A)) : list Z :=
  flat_map (fun e => match e with Retired r => [r] | _ => [] end) tr.

Definition recorded (tr : list (event A)) : list Z :=
  flat_map (fun e => match e with Recorded t => [t] | _ => [] end) tr.

Definition logged (tr : list (event A)) : list LogRecord :=
  flat_map (fun e => match e with Logged l => [l] | _ => [] end) tr.

Definition called (tr : list (event A)) : list A :=
  flat_map (fun e => match e with Called a => [a] | _ => [] end) tr.

(** The delay a call underwent inside the limiter. *)
Definition imposed (tr : list (event A)) : Z := fold_right Z.add 0 (slept tr).

(** ** [get], case by case *)

(** The last statement of both branches, [return self._get(...)], after
    the events [tr] and in the state [s1] the limiter has reached. *)
Definition finish (a : A) (tr : list (event A)) (s1 : St)
  : result E R * list (event A) * St :=
  (fst (_get (self s1) a (world s1)), tr ++ [Called a],
   {| self := self s1; world := snd (_get (self s1) a (world s1)) |}).

Definition waiting (dt : Z) : LogRecord :=
  {| levelname := INFO;
     msg := "Waiting %.3fs so as to not go over the API rate limit";
     args := [dt] |}.

Inductive get_case (a : A) (s : St) : Prop :=
| Fill :
    Z.of_nat (List.length (_requests (self s))) < _count (self s) ->
    get a s
    = finish a [Recorded (clock (world s))]
        (set_requests (_requests (self s) ++ [clock (world s)]) s) ->
    get_case a s
| Empty :
    _count (self s) <= 0 ->
    _requests (self s) = [] ->
    get a s = (Raise (IndexError "pop from an empty deque"), [], s) ->
    get_case a s
| Wait : forall r q,
    _requests (self s) = r :: q ->
    _count (self s) <= Z.of_nat (List.length (r :: q)) ->
    clock (world s) < r + _period (self s) ->
    get a s
    = finish a [Retired r;
                Logged (waiting (r + _period (self s) - clock (world s)));
                Slept (r + _period (self s) - clock (world s));
                Recorded (r + _period (self s))]
        (set_requests (q ++ [r + _period (self s)])
           (set_clock (r + _period (self s)) s)) ->
    get_case a s
| Pass : forall r q,
    _requests (self s) = r :: q ->
    _count (self s) <= Z.of_nat (List.length (r :: q)) ->
    r + _period (self s) <= clock (world s) ->
    get a s
    = finish a [Retired r; Recorded (clock (world s))]
        (set_requests (q ++ [clock (world s)]) s) ->
    get_case a s.

(** ** Vocabulary of the properties *)

(** A time source that never runs backwards while the wrapped operation
    is at work. *)
Definition monotone (g : operation) : Prop :=
  forall a w, clock w <= clock (snd (g a w)).

(** The records appended to the deque over a sequence of calls, in
    order: the instants at which calls were admitted. *)
Definition stamps (os : list Obs) : list Z :=
  flat_map (fun o => recorded (trace o)) os.

(** The oldest record decides: [get] sleeps exactly in this case. *)
Definition delayed (s : St) : bool :=
  match _requests (self s) with
  | [] => false
  | r :: _ =>
      negb (Z.of_nat (List.length (_requests (self s))) <? _count (self s))
      && (clock (world s) <? r + _period (self s))
  end.

(** The deque is in the order of the clock, and holds nothing of the
    future. *)
Definition ordered (s : St) : Prop :=
  Sorted Z.le (_requests (self s))
  /\ Forall (fun t => t <= clock (world s)) (_requests (self s)).

(** The two shapes a call can take.  [filling]: the deque was short of
    [count] records, and the call was recorded and passed on at once.
    [steady]: the deque held [count] records, the oldest was retired,
    and the call waited for it to leave the window if it had not. *)
Definition filling (count : Z) (o : Obs) : Prop :=
  Z.of_nat (List.length (pending o)) < count
  /\ trace o = [Recorded (arrival o); Called (argument o)].

Definition steady (count period : Z) (o : Obs) : Prop :=
  exists r q,
    pending o = r :: q
    /\ Z.of_nat (List.length (pending o)) = count
    /\ trace o
       = if arrival o <? r + period
         then [Retired r; Logged (waiting (r + period - arrival o));
               Slept (r + period - arrival o); Recorded (r + period);
               Called (argument o)]
         else [Retired r; Recorded (arrival o); Called (argument o)].

End Limiter.

(** Membership of the window [[lo, lo + period)], of length [period]. *)
Definition in_window (lo period t : Z) : bool :=
  (lo <=? t) && (t <? lo + period).

Definition count_in (lo period : Z) (l : list Z) : Z :=
  Z.of_nat (List.length (filter (in_window lo period) l)).

(** A record is within [period] of [now]. *)
Definition within (now period t : Z) : bool :=
  (now - period <=? t) && (t <=? now).

(** The invariant behind the admission bound.  [old] lists the records
    retired so far, oldest first: with the deque it makes up the whole
    history of admissions. *)
Definition history_inv {A R E X} (old : list Z) (s : St A R E X) : Prop :=
  StronglySorted Z.le (old ++ _requests (self s))
  /\ Forall (fun t => t <= clock (world s)) (old ++ _requests (self s))
  /\ Z.of_nat (List.length (_requests (self s))) <= _count (self s)
  /\ (old = [] \/ Z.of_nat (List.length (_requests (self s))) = _count (self s))
  /\ forall lo,
       count_in lo (_period (self s)) (old ++ _requests (self s))
       <= _count (self s).

(** The delays as a function of the configuration, of the deque [q] the
    first call finds and of the arrival instants, and of nothing else. *)
Fixpoint schedule (count period : Z) (q arrivals : list Z) : list Z :=
  match arrivals with
  | [] => []
  | now :: rest =>
      if Z.of_nat (List.length q) <? count
      then 0 :: schedule count period (q ++ [now]) rest
      else match q with
           | [] => 0 :: schedule count period q rest
           | r :: q' =>
               let dt := if now <? r + period then r + period - now else 0 in
               dt :: schedule count period (q' ++ [now + dt]) rest
           end
  end.



(** ** A concrete setting

    A server that counts the requests it receives.  [instant] answers at
    once with the count; [slow] takes 250 ms to answer; [flaky] fails on
    every second request. *)
Module Example.

Definition instant : operation unit nat string nat :=
  fun _ w => (Ok (ext w), {| clock := clock w; ext := S (ext w) |}).

Definition slow : operation unit nat string nat :=
  fun _ w => (Ok (ext w), {| clock := clock w + 250; ext := S (ext w) |}).

Definition flaky : operation unit nat string nat :=
  fun _ w =>
    (if Nat.even (ext w) then Ok (ext w) else Raise (Failure "503"),
     {| clock := clock w; ext := S (ext w) |}).

Definition midnight : World nat := {| clock := 0; ext := O |}.

(** Line 46 of the script: three calls per ten seconds. *)
Definition script (g : operation unit nat string nat)
  : St unit nat string nat :=
  boot g 3 10000 midnight.

(** Three calls at once, and a fourth one second later. *)
Definition burst : list (Z * unit) := [(0, tt); (0, tt); (0, tt); (1000, tt)].

(** Five calls without any delay of the caller. *)
Definition hammer : list (Z * unit) :=
  [(0, tt); (0, tt); (0, tt); (0, tt); (0, tt)].

(** Two callers whose calls arrive at 0, 250, 500 and 1000 ms: the first
    through [instant], the second through [slow]. *)
Definition paced : list (Z * unit) :=
  [(0, tt); (250, tt); (250, tt); (500, tt)].

Definition eager : list (Z * unit) :=
  [(0, tt); (0, tt); (0, tt); (250, tt)].

(** A limiter built with a count of zero. *)
Definition misbuilt : St unit nat string nat := boot instant 0 10000 midnight.

(** The deque full of records of instant 0, one second later. *)
Definition full : St unit nat string nat :=
  {| self := {| _count := 3; _period := 10000; _requests := [0; 0; 0];
                _get := instant |};
     world := {| clock := 1000; ext := 3%nat |} |}.

(** The same deque in front of the server about to fail. *)
Definition failing : St unit nat string nat :=
  {| self := {| _count := 3; _period := 10000; _requests := [0; 0; 0];
                _get := flaky |};
     world := {| clock := 1000; ext := 3%nat |} |}.

End Example.

(** * The rest of the script: what it does with the answers of GitHub

    Lines 49-148 read JSON documents obtained through the limiter.  A
    document is a [json] value, as [response.json()] builds it from a
    payload whose numbers are integers.  Strings are the UTF-8 bytes of
    Python's strings.  Python's errors on values of the wrong shape are
    kept: [KeyError], [TypeError], [AttributeError], [IndexError]. *)

Local Unset Elimination Schemes.

Inductive json :=
| JNull
| JBool (b : bool)
| JInt (n : Z)
| JStr (s : string)
| JList (l : list json)
| JDict (d : list (string * json)).   (* the items; keys are distinct *)

Local Set Elimination Schemes.

(** The exceptions of this part, carried by [Failure]; [IndexError] is
    the one of [exn].  [Unreachable] stands for what [requests] raises
    when the server cannot be reached. *)
Inductive error :=
| KeyError (key : json)
| TypeError
| AttributeError
| Unreachable (m : string).

Definition and_then {T U} (r : result error T) (k : T -> result error U)
  : result error U :=
  match r with
  | Ok x => k x
  | Raise e => Raise e
  end.

Declare Scope py_scope.
Delimit Scope py_scope with py.
Notation "x <- r ;; k" := (and_then r (fun x => k))
  (at level 61, r at next level, right associativity) : py_scope.

(** ** Python's operators on documents *)

Fixpoint lookup (key : string) (d : list (string * json)) : option json :=
  match d with
  | [] => None
  | (k, v) :: rest => if String.eqb k key then Some v else lookup key rest
  end.

(** [v[key]] for a string [key]. *)
Definition getitem_key (v : json) (key : string) : result error json :=
  match v with
  | JDict d =>
      match lookup key d with
      | Some x => Ok x
      | None => Raise (Failure (KeyError (JStr key)))
      end
  | _ => Raise (Failure TypeError)
  end.

(** [s.startswith(p)] *)
Fixpoint starts_with (p s : string) : bool :=
  match p, s with
  | EmptyString, _ => true
  | String a p', String b s' => Ascii.eqb a b && starts_with p' s'
  | String _ _, EmptyString => false
  end.

(** [needle in s] for two strings. *)
Fixpoint occurs (needle s : string) : bool :=
  starts_with needle s
  || match s with
     | EmptyString => false
     | String _ rest => occurs needle rest
     end.

(** [needle in v] for a string [needle]: a substring of a string, an
    element of a list, a key of a dict. *)
Definition py_in (needle : string) (v : json) : result error bool :=
  match v with
  | JStr s => Ok (occurs needle s)
  | JList l =>
      Ok (existsb (fun x => match x with
                            | JStr s => String.eqb needle s
                            | _ => false
                            end) l)
  | JDict d => Ok (existsb (fun kv => String.eqb needle (fst kv)) d)
  | _ => Raise (Failure TypeError)
  end.

Fixpoint chars (s : string) : list json :=
  match s with
  | EmptyString => []
  | String c rest => JStr (String c EmptyString) :: chars rest
  end.

(** The items [for x in v] goes through: the elements of a list, the
    keys of a dict, the characters of a string (its bytes here: the
    loops of this script fail on the first of them, whatever it is). *)
Definition py_iter (v : json) : result error (list json) :=
  match v with
  | JList l => Ok l
  | JDict d => Ok (map (fun kv => JStr (fst kv)) d)
  | JStr s => Ok (chars s)
  | _ => Raise (Failure TypeError)
  end.

(** ** [get_sct_function_from_label], lines 83-94 *)

Local Open Scope py_scope.

Fixpoint sct_loop (labels labels_list : list json)
  : result error (list json) :=
  match labels with
  | [] => Ok labels_list
  | label :: rest =>
      name <- getitem_key label "name" ;;
      found <- py_in "sct_" name ;;
      if found then
        name' <- getitem_key label "name" ;;
        sct_loop rest (labels_list ++ [name'])
      else sct_loop rest labels_list
  end.

Definition get_sct_function_from_label (dict_labels : json)
  : result error (list json) :=
  labels <- py_iter dict_labels ;;
  sct_loop labels [].

(** ** [check_compatibility], lines 97-109 *)

Definition breaks_compatibility : string :=
  "**WARNING: Breaks compatibility with previous versions of SCT.** ".

Fixpoint compatibility_loop (labels : list json)
         (warning_compatibility : string) : result error string :=
  match labels with
  | [] => Ok warning_compatibility
  | label :: rest =>
      name <- getitem_key label "name" ;;
      found <- py_in "compatibility" name ;;
      if found then compatibility_loop rest breaks_compatibility
      else compatibility_loop rest warning_compatibility
  end.

Definition check_compatibility (dict_labels : json) : result error string :=
  labels <- py_iter dict_labels ;;
  compatibility_loop labels "".

Local Close Scope py_scope.

(** ** More of Python's operators *)

(** [v[i]] for an integer [i]; a negative [i] counts from the end. *)
Definition getitem_pos (v : json) (i : Z) : result error json :=
  match v with
  | JList l =>
      let n := Z.of_nat (List.length l) in
      let j := if i <? 0 then i + n else i in
      if (0 <=? j) && (j <? n)
      then Ok (nth (Z.to_nat j) l JNull)
      else Raise (IndexError "list index out of range")
  | JStr s =>
      let n := Z.of_nat (String.length s) in
      let j := if i <? 0 then i + n else i in
      match (if (0 <=? j) && (j <? n) then String.get (Z.to_nat j) s
             else None) with
      | Some c => Ok (JStr (String c EmptyString))
      | None => Raise (IndexError "string index out of range")
      end
  | JDict _ => Raise (Failure (KeyError (JInt i)))
  | _ => Raise (Failure TypeError)
  end.

(** The characters of a string: the bytes that do not continue a UTF-8
    sequence. *)
Fixpoint code_points (s : string) : nat :=
  match s with
  | EmptyString => O
  | String c rest =>
      let b := N_of_ascii c in
      ((if (128 <=? b)%N && (b <? 192)%N then 0 else 1) + code_points rest)%nat
  end.

(** [len(v)] *)
Definition py_len (v : json) : result error Z :=
  match v with
  | JList l => Ok (Z.of_nat (List.length l))
  | JDict d => Ok (Z.of_nat (List.length d))
  | JStr s => Ok (Z.of_nat (code_points s))
  | _ => Raise (Failure TypeError)
  end.

(** The truth value of [v], as [if v:] takes it. *)
Definition py_bool (v : json) : bool :=
  match v with
  | JNull => false
  | JBool b => b
  | JInt n => negb (n =? 0)
  | JStr s => negb (String.eqb s "")
  | JList l => negb (Nat.eqb (List.length l) 0)
  | JDict d => negb (Nat.eqb (List.length d) 0)
  end.

(** [d.get(key)]: [None] for a key that is missing; only dicts have the
    method. *)
Definition dict_get (v : json) (key : string) : result error json :=
  match v with
  | JDict d =>
      match lookup key d with
      | Some x => Ok x
      | None => Ok JNull
      end
  | _ => Raise (Failure AttributeError)
  end.

(** [str(v)], as [%s] and [{}] apply it.  What it gives for lists and
    dicts ([repr_of]) is left to the caller of the model. *)
Definition decimal (n : Z) : string :=
  if n <? 0 then String.append "-" (digits (- n)) else digits n.

Definition py_str (repr_of : json -> string) (v : json) : string :=
  match v with
  | JNull => "None"
  | JBool true => "True"
  | JBool false => "False"
  | JInt n => decimal n
  | JStr s => s
  | JList _ | JDict _ => repr_of v
  end.

(** [template % v] for a template whose directive is [%d]: the text that
    replaces the directive. *)
Definition percent_d (v : json) : result error string :=
  match v with
  | JInt n => Ok (decimal n)
  | JBool b => Ok (if b then "1" else "0")
  | _ => Raise (Failure TypeError)
  end.

(** [sep.join(l)]: every item must be a string. *)
Fixpoint join (sep : string) (l : list json) : result error string :=
  match l with
  | [] => Ok ""
  | [JStr s] => Ok s
  | JStr s :: rest =>
      match join sep rest with
      | Ok t => Ok (String.append s (String.append sep t))
      | Raise e => Raise e
      end
  | _ => Raise (Failure TypeError)
  end.

Fixpoint concat_with (sep : string) (l : list string) : string :=
  match l with
  | [] => ""
  | [s] => s
  | s :: rest => String.append s (String.append sep (concat_with sep rest))
  end.

(** [s.replace(old, new)] for a non-empty [old]: the occurrences of
    [old] are taken from left to right, without overlap.  [skip] counts
    the characters of an occurrence still to be passed over. *)
Fixpoint replace_from (old new : string) (skip : nat) (s : string) : string :=
  match s with
  | EmptyString => EmptyString
  | String c rest =>
      match skip with
      | S k => replace_from old new k rest
      | O =>
          if starts_with old s
          then String.append new
                 (replace_from old new (String.length old - 1) rest)
          else String c (replace_from old new 0 rest)
      end
  end.

Definition replace (old new s : string) : string := replace_from old new 0 s.

(** The whitespace [s.split()] cuts at.  [is_space]: the ASCII
    characters among it.  [space_width]: the number of bytes of the
    whitespace character a string starts with, 0 when it starts with
    none; beyond ASCII these are U+0085, U+00A0, U+1680, U+2000 to
    U+200A, U+2028, U+2029, U+202F, U+205F and U+3000, in UTF-8. *)
Definition is_space (c : ascii) : bool :=
  let b := N_of_ascii c in
  ((9 <=? b) && (b <=? 13) || (28 <=? b) && (b <=? 32))%N.

Definition space_width (s : string) : nat :=
  match s with
  | EmptyString => 0
  | String c0 r0 =>
      if is_space c0 then 1
      else
        match r0 with
        | EmptyString => 0
        | String c1 r1 =>
            let b0 := N_of_ascii c0 in
            let b1 := N_of_ascii c1 in
            if ((b0 =? 194) && ((b1 =? 133) || (b1 =? 160)))%N then 2
            else
              match r1 with
              | EmptyString => 0
              | String c2 _ =>
                  let b2 := N_of_ascii c2 in
                  if ((b0 =? 225) && (b1 =? 154) && (b2 =? 128)
                      || (b0 =? 226) && (b1 =? 128)
                         && ((128 <=? b2) && (b2 <=? 138) || (b2 =? 168)
                             || (b2 =? 169) || (b2 =? 175))
                      || (b0 =? 226) && (b1 =? 129) && (b2 =? 159)
                      || (b0 =? 227) && (b1 =? 128) && (b2 =? 128))%N
                  then 3 else 0
              end
        end
  end.

(** [s.split()]; [word] is the word being read, [skip] the number of
    bytes of a whitespace character still to be passed over. *)
Fixpoint split_from (skip : nat) (s word : string) : list string :=
  match s with
  | EmptyString => if String.eqb word "" then [] else [word]
  | String c rest =>
      match skip with
      | S k => split_from k rest word
      | O =>
          match space_width s with
          | O => split_from 0 rest (String.append word (String c EmptyString))
          | S k =>
              if String.eqb word "" then split_from k rest ""
              else word :: split_from k rest ""
          end
      end
  end.

Definition split (s : string) : list string := split_from 0 s "".

(** Strings without any ASCII whitespace, made of ASCII whitespace
    only, and made of ASCII characters only. *)
Fixpoint no_space (s : string) : bool :=
  match s with
  | EmptyString => true
  | String c rest => negb (is_space c) && no_space rest
  end.

Fixpoint all_space (s : string) : bool :=
  match s with
  | EmptyString => true
  | String c rest => is_space c && all_space rest
  end.

Fixpoint is_ascii (s : string) : bool :=
  match s with
  | EmptyString => true
  | String c rest => (N_of_ascii c <? 128)%N && is_ascii rest
  end.

(** [s.upper()] for a string of ASCII characters, as the six labels of
    line 123 are. *)
Definition upper_char (c : ascii) : ascii :=
  let b := N_of_ascii c in
  if ((97 <=? b) && (b <=? 122))%N then ascii_of_N (b - 32) else c.

Fixpoint upper (s : string) : string :=
  match s with
  | EmptyString => EmptyString
  | String c rest => String (upper_char c) (upper rest)
  end.

(** Equality of two values that can be members of a set; [True] is 1
    and [False] is 0. *)
Definition py_eq (v w : json) : bool :=
  match v, w with
  | JNull, JNull => true
  | JStr a, JStr b => String.eqb a b
  | JInt a, JInt b => a =? b
  | JBool a, JBool b => Bool.eqb a b
  | JInt a, JBool b | JBool b, JInt a => a =? (if b then 1 else 0)
  | _, _ => false
  end.

Definition member (v : json) (l : list json) : bool := existsb (py_eq v) l.

(** [set(l)], kept as the list of its members in the order they were
    first met; lists and dicts cannot be members. *)
Fixpoint py_set (l : list json) : result error (list json) :=
  match l with
  | [] => Ok []
  | JList _ :: _ | JDict _ :: _ => Raise (Failure TypeError)
  | v :: rest =>
      match py_set rest with
      | Ok r => Ok (v :: filter (fun w => negb (py_eq v w)) r)
      | Raise e => Raise e
      end
  end.

(** [a.union(b)] and [a - b] *)
Definition union (a b : list json) : list json :=
  a ++ filter (fun w => negb (member w a)) b.

Definition difference (a b : list json) : list json :=
  filter (fun w => negb (member w b)) a.

(** ** The line of a pull request, lines 130-135 *)

Local Open Scope py_scope.

Definition item_line (repr_of : json -> string) (x : json)
  : result error string :=
  labels <- getitem_key x "labels" ;;
  functions <- get_sct_function_from_label labels ;;
  joined <- join "," functions ;;
  title <- getitem_key x "title" ;;
  labels <- getitem_key x "labels" ;;
  warning <- check_compatibility labels ;;
  html_url <- getitem_key x "html_url" ;;
  let line :=
    String.append " - **"
      (String.append joined
         (String.append ":** "
            (String.append (py_str repr_of title)
               (String.append ". "
                  (String.append warning
                     (String.append "[View pull request]("
                        (String.append (py_str repr_of html_url) ")"))))))) in
  labels <- getitem_key x "labels" ;;
  functions <- get_sct_function_from_label labels ;;
  if Nat.eqb (List.length functions) 0
  then Ok (replace "**:** " "" line)
  else Ok line.

(** [[f(x) for x in l]] *)
Fixpoint for_each {T} (f : json -> result error T) (l : list json)
  : result error (list T) :=
  match l with
  | [] => Ok []
  | x :: rest =>
      y <- f x ;;
      ys <- for_each f rest ;;
      Ok (y :: ys)
  end.

(** [milestone['title'].split()[-1]], line 115: only strings have the
    method. *)
Definition release_of (milestone : json) : result error string :=
  title <- getitem_key milestone "title" ;;
  match title with
  | JStr s =>
      match rev (split s) with
      | last :: _ => Ok last
      | [] => Raise (IndexError "list index out of range")
      end
  | _ => Raise (Failure AttributeError)
  end.

Local Close Scope py_scope.

(** ** The script and its requests *)

(** What [requests.get] is given, and what it returns: of a response the
    script only uses [json()], which returns the document of the payload
    or raises. *)
Record Request := { url : string; params : list (string * string) }.

Record Response := { decoded : result error json }.

(** What the script lets out: the events of the limiter, the records it
    logs itself, the file it writes and the line it prints. *)
Inductive output :=
| Net (e : event Request)
| Info (template : string) (args : list json)
| Warning (template : string) (args : list json)
| Wrote (filename content : string)
| Printed (line : string).

Definition newline : string := String (ascii_of_nat 10) EmptyString.

Definition quote : string := String (ascii_of_nat 34) EmptyString.

Definition API_URL : string :=
  "https://api.github.com/repos/spinalcordtoolbox/spinalcordtoolbox/".

(** The [html_url] of the items of the answer to a search; none when
    there is no item to go through. *)
Definition urls_of (resp : Response) : list json :=
  match decoded resp with
  | Ok data =>
      match dict_get data "items" with
      | Ok items =>
          if py_bool items then
            match py_iter items with
            | Ok xs =>
                match for_each (fun x => getitem_key x "html_url") xs with
                | Ok urls => urls
                | Raise _ => []
                end
            | Raise _ => []
            end
          else []
      | Raise _ => []
      end
  | Raise _ => []
  end.

(** A server whose answer to a request is [serve] of it, at any time. *)
Definition answers {X} (g : operation Request Response error X)
           (serve : Request -> Response) : Prop :=
  forall r w, fst (g r w) = Ok (serve r).

Section Script.

(** [X]: the state of GitHub.  [repr_of]: [str] of a list or a dict.
    [iso_date]: the local date, as [str(datetime.date.today())] prints
    it, at an instant of the clock.  [set_order]: the order in which a
    [for] goes through the members of a set. *)
Variable X : Type.
Variable repr_of : json -> string.
Variable iso_date : Z -> string.
Variable set_order : list json -> list json.

Definition Machine := St Request Response error X.

Definition Script (T : Type) :=
  Machine -> result error T * list output * Machine.

Definition done {T} (x : T) : Script T := fun s => (Ok x, [], s).

Definition seq {T U} (m : Script T) (k : T -> Script U) : Script U :=
  fun s =>
    match m s with
    | (Ok x, out, s1) =>
        match k x s1 with
        | (o, out', s2) => (o, out ++ out', s2)
        end
    | (Raise e, out, s1) => (Raise e, out, s1)
    end.

Notation "x <- m ;; k" := (seq m (fun x => k))
  (at level 61, m at next level, right associativity).
Notation "m ;; k" := (seq m (fun _ => k))
  (at level 61, right associativity).

(** A computation on documents, which touches nothing. *)
Definition pure {T} (r : result error T) : Script T := fun s => (r, [], s).

Definition emit (o : output) : Script unit := fun s => (Ok tt, [o], s).

(** [requests.get] as line 46 rebinds it: the [get] of the limiter. *)
Definition requests_get (r : Request) : Script Response :=
  fun s =>
    match get r s with
    | (o, tr, s1) => (o, map Net tr, s1)
    end.

(** [datetime.date.today()] *)
Definition date_today : Script string :=
  fun s => (Ok (iso_date (clock (world s))), [], s).

(** Lines 49-57. *)
Definition latest_milestone : Script json :=
  let milestone_url := String.append API_URL "milestones" in
  response <- requests_get {| url := milestone_url; params := [] |} ;;
  data <- pure (decoded response) ;;
  n <- pure (py_len data) ;;
  emit (Info "Open milestones found %d" [JInt n]) ;;
  first <- pure (getitem_pos data 0) ;;
  title <- pure (getitem_key first "title") ;;
  emit (Info "Latest Milestone: %s" [title]) ;;
  first <- pure (getitem_pos data 0) ;;
  done first.

(** Lines 60-66. *)
Definition detailed_changelog (new_tag : json) : Script string :=
  let tags_url := String.append API_URL "releases" in
  response <- requests_get {| url := tags_url; params := [] |} ;;
  data <- pure (decoded response) ;;
  first <- pure (getitem_pos data 0) ;;
  previous_tag <- pure (getitem_key first "tag_name") ;;
  done (String.append
          "https://github.com/spinalcordtoolbox/spinalcordtoolbox/compare/"
          (String.append (py_str repr_of previous_tag)
             (String.append "..." (py_str repr_of new_tag)))).

(** The query of [search], lines 73-75. *)
Definition query_of (milestone : json) (label : string) : string :=
  let query :=
    String.append "milestone:"
      (String.append quote
         (String.append (py_str repr_of milestone)
            (String.append quote
               " is:pr repo:spinalcordtoolbox/spinalcordtoolbox state:closed is:merged"))) in
  if negb (String.eqb label "")
  then String.append query (String.append " label:" label)
  else query.

(** Lines 69-80. *)
Definition search (milestone : json) (label : string) : Script json :=
  let search_url := "https://api.github.com/search/issues" in
  let payload := [("q", query_of milestone label)] in
  response <- requests_get {| url := search_url; params := payload |} ;;
  data <- pure (decoded response) ;;
  total_count <- pure (getitem_key data "total_count") ;;
  emit (Info "Milestone: %s, Label: %s, Count: %d"
             [milestone; JStr label; total_count]) ;;
  done data.

(** The body of the loop of lines 123-136, for one label: the lines and
    the set of pull requests, before and after. *)
Definition labelled (milestone : json) (label : string)
           (lines : list string) (changelog_pr : list json)
  : Script (list string * list json) :=
  title <- pure (getitem_key milestone "title") ;;
  pulls <- search title label ;;
  items <- pure (dict_get pulls "items") ;;
  if py_bool items then
    let lines :=
      lines ++ [String.append newline
                  (String.append "**"
                     (String.append (upper label)
                        (String.append "**" newline)))] in
    xs <- pure (py_iter items) ;;
    urls <- pure (for_each (fun x => getitem_key x "html_url") xs) ;;
    found <- pure (py_set urls) ;;
    let changelog_pr := union changelog_pr found in
    items <- pure (dict_get pulls "items") ;;
    xs <- pure (py_iter items) ;;
    new_lines <- pure (for_each (item_line repr_of) xs) ;;
    done (lines ++ new_lines, changelog_pr)
  else done (lines, changelog_pr).

(** The lines a label adds to the changelog, given the answer to its
    search: a heading and a line for each item, or nothing when there is
    no item. *)
Definition section_of (label : string) (resp : Response) : list string :=
  match decoded resp with
  | Ok data =>
      match dict_get data "items" with
      | Ok items =>
          if py_bool items then
            match py_iter items with
            | Ok xs =>
                match for_each (item_line repr_of) xs with
                | Ok new_lines =>
                    String.append newline
                      (String.append "**"
                         (String.append (upper label)
                            (String.append "**" newline)))
                      :: new_lines
                | Raise _ => []
                end
            | Raise _ => []
            end
          else []
      | Raise _ => []
      end
  | Raise _ => []
  end.

Fixpoint for_labels (milestone : json) (labels : list string)
         (lines : list string) (changelog_pr : list json)
  : Script (list string * list json) :=
  match labels with
  | [] => done (lines, changelog_pr)
  | label :: rest =>
      acc <- labelled milestone label lines changelog_pr ;;
      for_labels milestone rest (fst acc) (snd acc)
  end.

Fixpoint warn_each (diff_pr : list json) : Script unit :=
  match diff_pr with
  | [] => done tt
  | diff :: rest =>
      emit (Warning "Pull request not labeled: %s" [diff]) ;;
      warn_each rest
  end.

(** Lines 112-148.  [logging.basicConfig], which only sets how the
    records are printed, leaves no event; opening the file and writing
    the lines joined and encoded in UTF-8 is the one event [Wrote]. *)
Definition main : Script unit :=
  milestone <- latest_milestone ;;
  title <- pure (release_of milestone) ;;
  today <- date_today ;;
  let heading :=
    String.append "## "
      (String.append title (String.append " (" (String.append today ")"))) in
  compare <- detailed_changelog (JStr title) ;;
  let lines :=
    [heading;
     String.append "[View detailed changelog]("
       (String.append compare ")")] in
  acc <- for_labels milestone
           ["bug"; "enhancement"; "feature"; "documentation";
            "installation"; "testing"] lines [] ;;
  let lines := fst acc in
  let changelog_pr := snd acc in
  emit (Info "Total number of pull requests with label: %d"
             [JInt (Z.of_nat (List.length changelog_pr))]) ;;
  title <- pure (getitem_key milestone "title") ;;
  pulls <- search title "" ;;
  items <- pure (getitem_key pulls "items") ;;
  xs <- pure (py_iter items) ;;
  urls <- pure (for_each (fun x => getitem_key x "html_url") xs) ;;
  all_pr <- pure (py_set urls) ;;
  let diff_pr := difference all_pr changelog_pr in
  warn_each (set_order diff_pr) ;;
  number <- pure (getitem_key milestone "number") ;;
  number_text <- pure (percent_d number) ;;
  let filename :=
    String.append "changelog." (String.append number_text ".md") in
  emit (Wrote filename (concat_with newline lines)) ;;
  emit (Info "Changelog saved in %s" [JStr filename]) ;;
  emit (Printed (String.append "open " filename)).

(** The requests a stretch of output has sent to GitHub, in order. *)
Definition sent (out : list output) : list Request :=
  flat_map (fun o => match o with Net (Called r) => [r] | _ => [] end) out.

Definition written (out : list output) : list (string * string) :=
  flat_map (fun o => match o with Wrote f c => [(f, c)] | _ => [] end) out.

Definition warned (out : list output) : list json :=
  flat_map (fun o => match o with
                     | Warning _ args => args
                     | _ => []
                     end) out.

Definition net (out : list output) : list (event Request) :=
  flat_map (fun o => match o with Net e => [e] | _ => [] end) out.

(** The requests of a run that goes well, for a milestone of title
    [t]. *)
Definition milestones_request : Request :=
  {| url := String.append API_URL "milestones"; params := [] |}.

Definition releases_request : Request :=
  {| url := String.append API_URL "releases"; params := [] |}.

Definition search_request (t : json) (label : string) : Request :=
  {| url := "https://api.github.com/search/issues";
     params := [("q", query_of t label)] |}.

Definition planned (t : json) : list Request :=
  [milestones_request; releases_request]
    ++ map (search_request t)
         ["bug"; "enhancement"; "feature"; "documentation"; "installation";
          "testing"]
    ++ [search_request t ""].

(** A computation that writes no file; and one that writes one file
    when it returns, none when it raises. *)
Definition writes_nothing {T} (m : Script T) : Prop :=
  forall s, written (snd (fst (m s))) = [].


(** A computation of the script is, for the limiter, a caller issuing at
    most [n] calls one after the other without any delay of its own. *)
Definition drives {T} (n : nat) (m : Script T) : Prop :=
  forall s, exists calls,
    (List.length calls <= n)%nat
    /\ Forall (fun c => fst c = 0) calls
    /\ net (snd (fst (m s)))
       = flat_map (@trace Request Response error) (fst (run calls s))
    /\ snd (m s) = snd (run calls s).

End Script.

(** ** A GitHub to run the script against

    One open milestone, [Release v5.0.1], and three merged pull requests:
    one labelled as a bug fix, one as an enhancement that breaks
    compatibility, one without label.  An answer takes 200 ms. *)
Module GitHub.

Definition label (name : string) : json := JDict [("name", JStr name)].

Definition pull (number title : string) (labels : list json) : json :=
  JDict [("title", JStr title);
         ("html_url",
          JStr (String.append
                  "https://github.com/spinalcordtoolbox/spinalcordtoolbox/pull/"
                  number));
         ("labels", JList labels)].

Definition bugfix : json :=
  pull "101" "Fix crash on empty labels"
       [label "bug"; label "sct_label_vertebrae"].

Definition template_labels : list json :=
  [label "enhancement"; label "sct_register_to_template";
   label "compatibility"; label "sct_warp_template"].

Definition template_names : list string :=
  ["enhancement"; "sct_register_to_template"; "compatibility";
   "sct_warp_template"].

Definition template : json :=
  pull "102" "New default template" template_labels.

Definition readme : json := pull "103" "Update README" [].

Definition milestone : json :=
  JDict [("title", JStr "Release v5.0.1"); ("number", JInt 42)].

Definition found (items : list json) : Response :=
  {| decoded :=
       Ok (JDict [("total_count", JInt (Z.of_nat (List.length items)));
                  ("items", JList items)]) |}.

Definition repr_of (v : json) : string := "[...]".

Definition iso_date (now : Z) : string := "2026-11-04".

(** The members of a set come out last first. *)
Definition set_order (l : list json) : list json := rev l.

Definition about (label : string) : Request :=
  search_request repr_of (JStr "Release v5.0.1") label.

Definition same (a b : Request) : bool :=
  String.eqb (url a) (url b)
  && match params a, params b with
     | [(k, v)], [(k', v')] => String.eqb k k' && String.eqb v v'
     | [], [] => true
     | _, _ => false
     end.

Definition serve (r : Request) : Response :=
  if same r milestones_request then {| decoded := Ok (JList [milestone]) |}
  else if same r releases_request
  then {| decoded := Ok (JList [JDict [("tag_name", JStr "5.0.0")]]) |}
  else if same r (about "bug") then found [bugfix]
  else if same r (about "enhancement") then found [template]
  else if same r (about "") then found [bugfix; template; readme]
  else found [].

Definition github : operation Request Response error nat :=
  fun r w => (Ok (serve r), {| clock := clock w + 200; ext := S (ext w) |}).

(** A GitHub with no open milestone. *)
Definition idle : operation Request Response error nat :=
  fun r w => (Ok {| decoded := Ok (JList []) |}, w).

(** The script as line 46 sets it up, at the instant 0. *)
Definition start (g : operation Request Response error nat)
  : St Request Response error nat :=
  boot g 3 10000 {| clock := 0; ext := O |}.

Definition run_main (g : operation Request Response error nat) :=
  main repr_of iso_date set_order (start g).

End GitHub.

(** A label as GitHub sends it, with its name. *)
Definition named (label : json) (name : string) : Prop :=
  getitem_key label "name" = Ok (JStr name).

Section Facts.

Variables A R E X : Type.

Local Notation "'state'" := (St A R E X).

Lemma get_cases (a : A) (s : state) : get_case a s.
Proof.
  destruct s as [[c p q g] [now x]].
  destruct (Z.ltb_spec (Z.of_nat (List.length q)) c) as [Hlt | Hge].
  - apply Fill; [exact Hlt |].
    unfold get, bind; cbn.
    apply Z.ltb_lt in Hlt; cbn in Hlt; rewrite Hlt; cbn.
    unfold self_get, finish; cbn.
    destruct (g a {| clock := now; ext := x |}); reflexivity.
  - destruct q as [| r q].
    + apply Empty; [cbn in *; lia | reflexivity |].
      unfold get, bind; cbn.
      apply Z.ltb_ge in Hge; cbn in Hge; rewrite Hge; reflexivity.
    + destruct (Z.ltb_spec now (r + p)) as [Hw | Hp].
      * apply Wait with (r := r) (q := q); [reflexivity | exact Hge | exact Hw |].
        unfold get, bind; cbn -[Z.of_nat List.length].
        apply Z.ltb_ge in Hge; rewrite Hge.
        cbn -[Z.add Z.sub Z.ltb].
        apply Z.ltb_lt in Hw; rewrite Hw.
        cbn -[Z.add Z.sub Z.ltb].
        unfold time_sleep.
        assert (Hdt : (r + p - now <? 0) = false) by (apply Z.ltb_ge; apply Z.ltb_lt in Hw; lia).
        cbn -[Z.add Z.sub Z.ltb]; rewrite Hdt.
        cbn -[Z.add Z.sub Z.ltb].
        replace (now + (r + p - now)) with (r + p) by lia.
        unfold self_get, finish, set_requests, set_clock;
          cbn -[Z.add Z.sub Z.ltb].
        destruct (g a {| clock := r + p; ext := x |}); reflexivity.
      * apply Pass with (r := r) (q := q); [reflexivity | exact Hge | exact Hp |].
        unfold get, bind; cbn -[Z.of_nat List.length].
        apply Z.ltb_ge in Hge; rewrite Hge.
        cbn -[Z.add Z.sub Z.ltb].
        apply Z.ltb_ge in Hp; rewrite Hp.
        cbn -[Z.add Z.sub Z.ltb].
        unfold self_get, finish, set_requests, set_clock;
          cbn -[Z.add Z.sub Z.ltb].
        destruct (g a {| clock := now; ext := x |}); reflexivity.
Qed.


(** Case analysis on a call, with the equation of [get] rewritten. *)
Ltac get_inv a s :=
  let Hg := fresh "Hg" in
  destruct (get_cases a s)
    as [? Hg | ? ? Hg | ? ? ? ? ? Hg | ? ? ? ? ? Hg];
  rewrite Hg; clear Hg.

(** *** One call *)

Lemma get_config (a : A) (s : state) :
  _count (self (snd (get a s))) = _count (self s)
  /\ _period (self (snd (get a s))) = _period (self s)
  /\ _get (self (snd (get a s))) = _get (self s).
Proof. get_inv a s; cbn; auto. Qed.

Lemma get_elapse_config (d : Z) (a : A) (s : state) :
  _count (self (snd (get a (elapse d s)))) = _count (self s)
  /\ _period (self (snd (get a (elapse d s)))) = _period (self s)
  /\ _get (self (snd (get a (elapse d s)))) = _get (self s).
Proof. exact (get_config a (elapse d s)). Qed.

Lemma get_size (a : A) (s : state) :
  0 <= _count (self s) ->
  Z.of_nat (List.length (_requests (self s))) <= _count (self s) ->
  Z.of_nat (List.length (_requests (self (snd (get a s)))))
  = Z.min (Z.of_nat (List.length (_requests (self s))) + 1) (_count (self s)).
Proof.
  intros H0 Hle.
  destruct (get_cases a s)
    as [Hlt Hg | Hc Hq Hg | r q Hq Hc Hw Hg | r q Hq Hc Hp Hg];
    rewrite Hg; cbn -[Z.of_nat Z.min].
  - rewrite length_app; cbn [List.length]. lia.
  - rewrite Hq; cbn. lia.
  - rewrite Hq in *. rewrite length_app. cbn [List.length] in *. lia.
  - rewrite Hq in *. rewrite length_app. cbn [List.length] in *. lia.
Qed.

(** *** Sequences of calls *)

Lemma run_cons (d : Z) (a : A) (rest : list (Z * A)) (s : state) :
  run ((d, a) :: rest) s
  = (observe d a s :: fst (run rest (snd (get a (elapse d s)))),
     snd (run rest (snd (get a (elapse d s))))).
Proof.
  cbn [run]. unfold observe.
  destruct (get a (elapse d s)) as [[o tr] s1]; cbn [fst snd].
  destruct (run rest s1) as [os s2]; reflexivity.
Qed.

Lemma run_app (c1 c2 : list (Z * A)) (s : state) :
  run (c1 ++ c2) s
  = (fst (run c1 s) ++ fst (run c2 (snd (run c1 s))),
     snd (run c2 (snd (run c1 s)))).
Proof.
  revert s; induction c1 as [| [d a] c1 IH]; intros s.
  - cbn. destruct (run c2 s); reflexivity.
  - rewrite <- app_comm_cons, !run_cons, IH. reflexivity.
Qed.

Lemma run_length (calls : list (Z * A)) (s : state) :
  List.length (fst (run calls s)) = List.length calls.
Proof.
  revert s; induction calls as [| [d a] calls IH]; intros s.
  - reflexivity.
  - rewrite run_cons; cbn. now rewrite IH.
Qed.

(** Cutting a run after its first [n] calls. *)
Lemma run_split (n : nat) (calls : list (Z * A)) (s : state) :
  firstn n (fst (run calls s)) = fst (run (firstn n calls) s)
  /\ skipn n (fst (run calls s))
     = fst (run (skipn n calls) (snd (run (firstn n calls) s)))
  /\ snd (run calls s)
     = snd (run (skipn n calls) (snd (run (firstn n calls) s))).
Proof.
  pose proof (run_app (firstn n calls) (skipn n calls) s) as Happ.
  rewrite firstn_skipn in Happ. rewrite Happ; clear Happ; cbn [fst snd].
  assert (Hn : (List.length (fst (run (firstn n calls) s)) <= n)%nat)
    by (rewrite run_length, length_firstn; lia).
  destruct (Nat.le_gt_cases n (List.length calls)) as [Hle | Hgt].
  - assert (Hl : List.length (fst (run (firstn n calls) s)) = n)
      by (rewrite run_length, length_firstn; lia).
    repeat split.
    + rewrite firstn_app, Hl, Nat.sub_diag, firstn_O, app_nil_r.
      apply firstn_all2; lia.
    + rewrite skipn_app, Hl, Nat.sub_diag, skipn_O.
      rewrite (skipn_all2 (fst (run (firstn n calls) s))) by lia.
      reflexivity.
  - rewrite (skipn_all2 calls) by lia. cbn [run fst snd].
    rewrite app_nil_r.
    repeat split.
    + apply firstn_all2; lia.
    + apply skipn_all2. rewrite run_length, length_firstn. lia.
Qed.

(** An invariant of the state, with a property of each call it entails,
    carries over to every sequence of calls. *)
Lemma run_invariant (D : Z -> Prop) (I : state -> Prop)
      (Q : Obs A R E -> Prop) :
  (forall d a s, D d -> I s ->
     I (snd (get a (elapse d s))) /\ Q (observe d a s)) ->
  forall calls s,
    Forall (fun c => D (fst c)) calls -> I s ->
    I (snd (run calls s)) /\ Forall Q (fst (run calls s)).
Proof.
  intros Hstep calls; induction calls as [| [d a] calls IH];
    intros s HD HI.
  - cbn; auto.
  - rewrite run_cons; cbn [fst snd].
    inversion HD as [| ? ? Hd HD']; subst; cbn [fst] in Hd.
    destruct (Hstep d a s Hd HI) as [HI' HQ].
    destruct (IH _ HD' HI') as [HI'' HQ'].
    split; [exact HI'' | constructor; assumption].
Qed.

(** *** The two phases of a limiter *)

Lemma observe_filling (d : Z) (a : A) (s : state) :
  Z.of_nat (List.length (_requests (self s))) < _count (self s) ->
  filling (_count (self s)) (observe d a s)
  /\ List.length (_requests (self (snd (get a (elapse d s)))))
     = S (List.length (_requests (self s))).
Proof.
  intros Hlt. unfold filling, observe; cbn [pending trace arrival argument].
  destruct (get_cases a (elapse d s))
    as [_ Hg | Hc Hq Hg | r q Hq Hc _ _ | r q Hq Hc _ _]; cbn in *.
  - rewrite Hg; cbn. rewrite length_app; cbn. split; [auto | lia].
  - rewrite Hq in Hlt; cbn in Hlt; lia.
  - rewrite Hq in Hlt; cbn in *; lia.
  - rewrite Hq in Hlt; cbn in *; lia.
Qed.

Lemma observe_steady (d : Z) (a : A) (s : state) :
  1 <= _count (self s) ->
  Z.of_nat (List.length (_requests (self s))) = _count (self s) ->
  steady (_count (self s)) (_period (self s)) (observe d a s)
  /\ Z.of_nat (List.length (_requests (self (snd (get a (elapse d s))))))
     = _count (self s).
Proof.
  intros H1 Hlen. unfold steady, observe; cbn [pending trace arrival argument].
  destruct (get_cases a (elapse d s))
    as [Hlt _ | Hc _ _ | r q Hq Hc Hw Hg | r q Hq Hc Hp Hg];
    cbn -[Z.of_nat List.length] in *; try lia.
  - rewrite Hg; cbn -[Z.of_nat]. split.
    + exists r, q. repeat split; auto.
      apply Z.ltb_lt in Hw. now rewrite Hw.
    + rewrite Hq in Hlen. rewrite length_app. cbn [List.length] in *. lia.
  - rewrite Hg; cbn -[Z.of_nat]. split.
    + exists r, q. repeat split; auto.
      apply Z.ltb_ge in Hp. now rewrite Hp.
    + rewrite Hq in Hlen. rewrite length_app. cbn [List.length] in *. lia.
Qed.

Lemma run_filling (calls : list (Z * A)) (s : state) :
  Z.of_nat (List.length (_requests (self s)) + List.length calls)
  <= _count (self s) ->
  Forall (filling (_count (self s))) (fst (run calls s))
  /\ List.length (_requests (self (snd (run calls s))))
     = (List.length (_requests (self s)) + List.length calls)%nat
  /\ _count (self (snd (run calls s))) = _count (self s)
  /\ _period (self (snd (run calls s))) = _period (self s).
Proof.
  revert s; induction calls as [| [d a] calls IH]; intros s Hle.
  - cbn. repeat split; auto.
  - rewrite run_cons; cbn [fst snd]. cbn [List.length] in Hle.
    destruct (@observe_filling d a s) as [Hf Hl]; [lia |].
    destruct (get_elapse_config d a s) as (Hc & Hp & _).
    destruct (IH (snd (get a (elapse d s)))) as (HF & HL & HC & HP).
    { rewrite Hc, Hl. lia. }
    rewrite Hc in HF, HC. rewrite Hp in HP.
    repeat split; auto.
    rewrite HL, Hl. cbn. lia.
Qed.

Lemma run_steady (calls : list (Z * A)) (s : state) :
  1 <= _count (self s) ->
  Z.of_nat (List.length (_requests (self s))) = _count (self s) ->
  Forall (steady (_count (self s)) (_period (self s))) (fst (run calls s))
  /\ Z.of_nat (List.length (_requests (self (snd (run calls s)))))
     = _count (self s).
Proof.
  intros H1 Hlen.
  destruct (@run_invariant (fun _ => True)
              (fun t => _count (self t) = _count (self s)
                        /\ _period (self t) = _period (self s)
                        /\ Z.of_nat (List.length (_requests (self t)))
                           = _count (self s))
              (steady (_count (self s)) (_period (self s))))
    with (calls := calls) (s := s) as [(_ & _ & HL) HF]; auto.
  - intros d a t _ (Hc & Hp & Hl).
    destruct (@observe_steady d a t) as [Hs Hl']; [lia | lia |].
    destruct (get_elapse_config d a t) as (Hc' & Hp' & _).
    rewrite Hc, Hp in Hs. rewrite Hc in Hl'.
    repeat split; auto; congruence.
  - apply Forall_forall; auto.
Qed.

(** From construction on: [count] calls fill the deque, and every later
    call finds it full. *)
Lemma run_shapes (g : operation A R E X) (count period : Z) (w : World X)
      (calls : list (Z * A)) :
  1 <= count ->
  Forall (filling count)
         (firstn (Z.to_nat count) (fst (run calls (boot g count period w))))
  /\ Forall (steady count period)
            (skipn (Z.to_nat count) (fst (run calls (boot g count period w)))).
Proof.
  intros H1.
  destruct (run_split (Z.to_nat count) calls (boot g count period w))
    as (Hf & Hs & _).
  rewrite Hf, Hs; clear Hf Hs.
  assert (Hn : (List.length (firstn (Z.to_nat count) calls)
                <= Z.to_nat count)%nat) by (rewrite length_firstn; lia).
  destruct (@run_filling (firstn (Z.to_nat count) calls)
              (boot g count period w)) as (HF & HL & HC & HP).
  { cbn. lia. }
  cbn in HF, HL, HC, HP.
  split; [exact HF |].
  destruct (Nat.le_gt_cases (Z.to_nat count) (List.length calls))
    as [Hle | Hgt].
  - rewrite length_firstn, Nat.min_l in HL by exact Hle.
    pose proof (@run_steady (skipn (Z.to_nat count) calls)
                  (snd (run (firstn (Z.to_nat count) calls)
                            (boot g count period w)))) as Hst.
    rewrite HC, HP, HL in Hst.
    apply Hst; lia.
  - rewrite skipn_all2 by lia. cbn. constructor.
Qed.

(** *** Windows over sorted histories *)

Lemma count_in_app (lo p : Z) (l1 l2 : list Z) :
  count_in lo p (l1 ++ l2) = count_in lo p l1 + count_in lo p l2.
Proof. unfold count_in. rewrite filter_app, length_app. lia. Qed.

Lemma count_in_length (lo p : Z) (l : list Z) :
  0 <= count_in lo p l <= Z.of_nat (List.length l).
Proof.
  unfold count_in. induction l as [| t l IH]; cbn [filter List.length].
  - lia.
  - destruct (in_window lo p t); cbn [List.length]; lia.
Qed.

Lemma count_in_before (lo p : Z) (l : list Z) :
  Forall (fun t => t < lo) l -> count_in lo p l = 0.
Proof.
  unfold count_in. induction 1 as [| t l Ht _ IH]; cbn [filter].
  - reflexivity.
  - unfold in_window at 1.
    replace (lo <=? t) with false by (symmetry; apply Z.leb_gt; exact Ht).
    exact IH.
Qed.

Lemma sorted_snoc (l : list Z) (t : Z) :
  StronglySorted Z.le l -> Forall (fun x => x <= t) l ->
  StronglySorted Z.le (l ++ [t]).
Proof.
  induction 1 as [| x l Hs IH Hx]; intros Hall; cbn.
  - repeat constructor.
  - inversion Hall as [| ? ? Hxt Hall']; subst.
    constructor; [apply IH; exact Hall' |].
    apply Forall_app; split; [exact Hx | repeat constructor; exact Hxt].
Qed.

Lemma sorted_before (l1 l2 : list Z) (x : Z) :
  StronglySorted Z.le (l1 ++ x :: l2) -> Forall (fun y => y <= x) l1.
Proof.
  induction l1 as [| y l1 IH]; cbn; intros Hs.
  - constructor.
  - apply StronglySorted_inv in Hs as [Hs Hy].
    constructor; [| apply IH; exact Hs].
    apply Forall_app in Hy as [_ Hy].
    inversion Hy; assumption.
Qed.

(** Retiring [r] for a new record [t] that is a whole period younger
    keeps every window within [c] records. *)
Lemma window_step (old q : list Z) (r t c p : Z) :
  StronglySorted Z.le (old ++ r :: q) ->
  r + p <= t ->
  Z.of_nat (List.length (r :: q)) = c ->
  (forall lo, count_in lo p (old ++ r :: q) <= c) ->
  forall lo, count_in lo p ((old ++ [r]) ++ q ++ [t]) <= c.
Proof.
  intros Hs Hrt Hlen Hw lo.
  destruct (in_window lo p t) eqn:Hin.
  - apply andb_true_iff in Hin as [_ Hhi]. apply Z.ltb_lt in Hhi.
    rewrite count_in_app.
    rewrite (@count_in_before lo p (old ++ [r])).
    + pose proof (count_in_length lo p (q ++ [t])) as Hl.
      rewrite length_app in Hl. cbn [List.length] in *. lia.
    + apply Forall_app; split.
      * apply sorted_before in Hs.
        eapply Forall_impl; [| exact Hs]. cbn; intros; lia.
      * repeat constructor. lia.
  - specialize (Hw lo).
    rewrite <- app_assoc; cbn [app].
    replace (old ++ r :: q ++ [t]) with ((old ++ r :: q) ++ [t])
      by (rewrite <- app_assoc; reflexivity).
    rewrite count_in_app.
    unfold count_in at 2; cbn [filter]. rewrite Hin. cbn. lia.
Qed.

(** *** The history of admissions *)

Lemma history_boot (g : operation A R E X) (count period : Z) (w : World X) :
  0 <= count -> history_inv [] (boot g count period w).
Proof.
  intros H0. unfold history_inv; cbn.
  repeat split; auto; constructor.
Qed.

Lemma get_history (d : Z) (a : A) (s : state) (old : list Z) :
  1 <= _count (self s) -> 0 <= d -> monotone (_get (self s)) ->
  history_inv old s ->
  history_inv (old ++ retired (trace (observe d a s)))
              (snd (get a (elapse d s)))
  /\ (old ++ retired (trace (observe d a s)))
       ++ _requests (self (snd (get a (elapse d s))))
     = (old ++ _requests (self s)) ++ recorded (trace (observe d a s)).
Proof.
  intros H1 Hd Hm (Hs & Hpast & Hsize & Hfill & Hwin).
  unfold observe; cbn [trace].
  destruct (get_cases a (elapse d s))
    as [Hlt Hg | Hc Hq Hg | r q Hq Hc Hw Hg | r q Hq Hc Hp Hg];
    rewrite Hg; clear Hg; unfold history_inv;
    cbn -[Z.of_nat List.length Z.add] in *.
  - (* the deque is short of [count] records: nothing was ever retired *)
    pose proof (Hm a {| clock := clock (world s) + d; ext := ext (world s) |})
      as Hclk; cbn in Hclk.
    assert (Hold : old = []) by (destruct Hfill; [assumption | lia]).
    subst old; cbn [app] in *.
    assert (Hall : Forall (fun t => t <= clock (world s) + d)
                          (_requests (self s)))
      by (eapply Forall_impl; [| exact Hpast]; cbn; intros; lia).
    repeat split.
    + apply sorted_snoc; assumption.
    + apply Forall_app; split.
      * eapply Forall_impl; [| exact Hall]. cbn; intros; lia.
      * repeat constructor. lia.
    + rewrite length_app; cbn [List.length]. lia.
    + left; reflexivity.
    + intros lo.
      pose proof (count_in_length lo (_period (self s))
                    (_requests (self s) ++ [clock (world s) + d])) as Hl.
      rewrite length_app in Hl; cbn [List.length] in Hl. lia.
  - lia.
  - (* the oldest record is still in the window: sleep until it leaves *)
    pose proof (Hm a {| clock := r + _period (self s); ext := ext (world s) |})
      as Hclk; cbn in Hclk.
    rewrite Hq in *.
    assert (Hlen : Z.of_nat (List.length (r :: q)) = _count (self s)) by lia.
    assert (Hall : Forall (fun x => x <= r + _period (self s)) (old ++ r :: q))
      by (eapply Forall_impl; [| exact Hpast]; cbn; intros; lia).
    replace ((old ++ [r]) ++ q ++ [r + _period (self s)])
      with ((old ++ r :: q) ++ [r + _period (self s)])
      by (rewrite <- !app_assoc; reflexivity).
    repeat split.
    + apply sorted_snoc; assumption.
    + apply Forall_app; split.
      * eapply Forall_impl; [| exact Hall]. cbn; intros; lia.
      * repeat constructor. lia.
    + rewrite length_app; cbn [List.length] in *. lia.
    + right. rewrite length_app; cbn [List.length] in *. lia.
    + intros lo.
      replace ((old ++ r :: q) ++ [r + _period (self s)])
        with ((old ++ [r]) ++ q ++ [r + _period (self s)])
        by (rewrite <- !app_assoc; reflexivity).
      apply window_step; auto. lia.
  - (* the oldest record has left the window: no sleep *)
    pose proof (Hm a {| clock := clock (world s) + d; ext := ext (world s) |})
      as Hclk; cbn in Hclk.
    rewrite Hq in *.
    assert (Hlen : Z.of_nat (List.length (r :: q)) = _count (self s)) by lia.
    assert (Hall : Forall (fun x => x <= clock (world s) + d) (old ++ r :: q))
      by (eapply Forall_impl; [| exact Hpast]; cbn; intros; lia).
    replace ((old ++ [r]) ++ q ++ [clock (world s) + d])
      with ((old ++ r :: q) ++ [clock (world s) + d])
      by (rewrite <- !app_assoc; reflexivity).
    repeat split.
    + apply sorted_snoc; assumption.
    + apply Forall_app; split.
      * eapply Forall_impl; [| exact Hall]. cbn; intros; lia.
      * repeat constructor. lia.
    + rewrite length_app; cbn [List.length] in *. lia.
    + right. rewrite length_app; cbn [List.length] in *. lia.
    + intros lo.
      replace ((old ++ r :: q) ++ [clock (world s) + d])
        with ((old ++ [r]) ++ q ++ [clock (world s) + d])
        by (rewrite <- !app_assoc; reflexivity).
      apply window_step; auto.
Qed.

Lemma run_config (calls : list (Z * A)) (s : state) :
  _count (self (snd (run calls s))) = _count (self s)
  /\ _period (self (snd (run calls s))) = _period (self s)
  /\ _get (self (snd (run calls s))) = _get (self s).
Proof.
  revert s; induction calls as [| [d a] calls IH]; intros s.
  - cbn; auto.
  - rewrite run_cons; cbn [snd].
    destruct (IH (snd (get a (elapse d s)))) as (Hc & Hp & Hg).
    destruct (get_elapse_config d a s) as (Hc' & Hp' & Hg').
    repeat split; congruence.
Qed.

Lemma run_history (calls : list (Z * A)) (s : state) (old : list Z) :
  1 <= _count (self s) ->
  Forall (fun c => 0 <= fst c) calls ->
  monotone (_get (self s)) ->
  history_inv old s ->
  exists old',
    history_inv old' (snd (run calls s))
    /\ old' ++ _requests (self (snd (run calls s)))
       = (old ++ _requests (self s)) ++ stamps (fst (run calls s)).
Proof.
  revert s old; induction calls as [| [d a] calls IH];
    intros s old H1 Hds Hm Hinv.
  - exists old; cbn. rewrite app_nil_r. auto.
  - inversion Hds as [| ? ? Hd Hds']; subst; cbn [fst] in Hd.
    rewrite run_cons; cbn [fst snd].
    destruct (@get_history d a s old H1 Hd Hm Hinv) as [Hinv1 Heq1].
    destruct (get_elapse_config d a s) as (Hc & _ & Hg).
    destruct (IH (snd (get a (elapse d s)))
                 (old ++ retired (trace (observe d a s))))
      as (old' & Hinv' & Heq'); auto.
    + rewrite Hc; exact H1.
    + rewrite Hg; exact Hm.
    + exists old'. split; [exact Hinv' |].
      rewrite Heq', Heq1. unfold stamps; cbn [flat_map].
      rewrite <- !app_assoc. reflexivity.
Qed.

Lemma run_phase (g : operation A R E X) (count period : Z) (w : World X)
      (calls : list (Z * A)) :
  1 <= count ->
  Forall (fun o => filling count o \/ steady count period o)
         (fst (run calls (boot g count period w))).
Proof.
  intros H1. destruct (@run_shapes g count period w calls H1) as [Hf Hs].
  rewrite <- (firstn_skipn (Z.to_nat count)
                (fst (run calls (boot g count period w)))).
  apply Forall_app; split.
  - eapply Forall_impl; [| exact Hf]. cbn; auto.
  - eapply Forall_impl; [| exact Hs]. cbn; auto.
Qed.

Lemma run_size (calls : list (Z * A)) (s : state) :
  0 <= _count (self s) ->
  Z.of_nat (List.length (_requests (self s))) <= _count (self s) ->
  Z.of_nat (List.length (_requests (self (snd (run calls s)))))
  = Z.min (Z.of_nat (List.length (_requests (self s)))
           + Z.of_nat (List.length calls))
          (_count (self s)).
Proof.
  revert s; induction calls as [| [d a] calls IH]; intros s H0 Hle.
  - cbn [run snd List.length]. lia.
  - rewrite run_cons; cbn [snd].
    destruct (get_elapse_config d a s) as (Hc & _ & _).
    pose proof (@get_size a (elapse d s) H0 Hle) as Hsz.
    change (_requests (self (elapse d s))) with (_requests (self s)) in Hsz.
    change (_count (self (elapse d s))) with (_count (self s)) in Hsz.
    rewrite IH; rewrite Hc; try lia.
    rewrite Hsz. cbn [List.length]. lia.
Qed.

Lemma steady_events (count period : Z) (o : Obs A R E) :
  steady count period o ->
  exists r q,
    pending o = r :: q
    /\ Z.of_nat (List.length (pending o)) = count
    /\ retired (trace o) = [r]
    /\ called (trace o) = [argument o]
    /\ imposed (trace o)
       = (if arrival o <? r + period then r + period - arrival o else 0)
    /\ recorded (trace o) = [arrival o + imposed (trace o)].
Proof.
  intros (r & q & Hp & Hl & Ht). exists r, q.
  rewrite Ht. destruct (arrival o <? r + period); cbn.
  - repeat split; auto; try lia. f_equal; lia.
  - repeat split; auto; try lia. f_equal; lia.
Qed.

(** The delays of a run are those of [schedule] at its arrivals. *)
Lemma run_schedule (calls : list (Z * A)) (s : state) :
  map (fun o => imposed (trace o)) (fst (run calls s))
  = schedule (_count (self s)) (_period (self s)) (_requests (self s))
             (map (@arrival A R E) (fst (run calls s))).
Proof.
  revert s; induction calls as [| [d a] calls IH]; intros s.
  - reflexivity.
  - rewrite run_cons; cbn [fst map schedule].
    rewrite IH; clear IH.
    destruct (get_elapse_config d a s) as (Hc & Hp & _).
    rewrite Hc, Hp; clear Hc Hp.
    unfold observe at 1 2 3; cbn [arrival trace].
    destruct (get_cases a (elapse d s))
      as [Hlt Hg | Hc Hq Hg | r q Hq Hc Hw Hg | r q Hq Hc Hp Hg];
      rewrite Hg; clear Hg; cbn -[Z.of_nat List.length Z.add schedule] in *.
    + apply Z.ltb_lt in Hlt. rewrite Hlt. reflexivity.
    + rewrite Hq.
      replace (Z.of_nat (List.length (@nil Z)) <? _count (self s))
        with false by (symmetry; apply Z.ltb_ge; cbn; lia).
      reflexivity.
    + rewrite Hq in *.
      apply Z.ltb_ge in Hc. rewrite Hc.
      apply Z.ltb_lt in Hw. rewrite Hw.
      replace (clock (world s) + d
               + (r + _period (self s) - (clock (world s) + d)))
        with (r + _period (self s)) by lia.
      f_equal. unfold imposed; cbn. lia.
    + rewrite Hq in *.
      apply Z.ltb_ge in Hc. rewrite Hc.
      apply Z.ltb_ge in Hp. rewrite Hp.
      rewrite Z.add_0_r. reflexivity.
Qed.

(** A call is admitted at the instant of its arrival plus its delay. *)
Lemma stamps_arrival (g : operation A R E X) (count period : Z) (w : World X)
      (calls : list (Z * A)) :
  1 <= count ->
  stamps (fst (run calls (boot g count period w)))
  = map (fun o => arrival o + imposed (trace o))
        (fst (run calls (boot g count period w))).
Proof.
  intros H1. pose proof (@run_phase g count period w calls H1) as Hph.
  induction Hph as [| o os Ho _ IH]; [reflexivity |].
  unfold stamps in *; cbn [flat_map map]. rewrite IH. clear IH.
  destruct Ho as [[_ Ht] | Ho].
  - rewrite Ht; cbn. f_equal. lia.
  - apply steady_events in Ho as (r & q & _ & _ & _ & _ & _ & Hrec).
    rewrite Hrec. reflexivity.
Qed.

Lemma sorted_tail (x : Z) (l : list Z) :
  StronglySorted Z.le (x :: l) -> StronglySorted Z.le l.
Proof. intros H; apply StronglySorted_inv in H; tauto. Qed.

Lemma ordered_strongly (s : state) :
  ordered s <->
  StronglySorted Z.le (_requests (self s))
  /\ Forall (fun t => t <= clock (world s)) (_requests (self s)).
Proof.
  unfold ordered; split; intros [Hs Hp]; split; auto.
  - apply Sorted_StronglySorted; [exact Z.le_trans | exact Hs].
  - apply StronglySorted_Sorted; exact Hs.
Qed.

Lemma get_ordered (d : Z) (a : A) (s : state) :
  0 <= d -> monotone (_get (self s)) -> ordered s ->
  ordered (snd (get a (elapse d s))).
Proof.
  intros Hd Hm Ho. apply ordered_strongly in Ho as [Hs Hpast].
  apply ordered_strongly.
  destruct (get_cases a (elapse d s))
    as [Hlt Hg | Hc Hq Hg | r q Hq Hc Hw Hg | r q Hq Hc Hp Hg];
    rewrite Hg; clear Hg; cbn -[Z.of_nat List.length Z.add] in *.
  - pose proof (Hm a {| clock := clock (world s) + d; ext := ext (world s) |})
      as Hclk; cbn in Hclk.
    assert (Hall : Forall (fun t => t <= clock (world s) + d)
                          (_requests (self s)))
      by (eapply Forall_impl; [| exact Hpast]; cbn; intros; lia).
    split.
    + apply sorted_snoc; assumption.
    + apply Forall_app; split.
      * eapply Forall_impl; [| exact Hall]. cbn; intros; lia.
      * repeat constructor. lia.
  - split; [exact Hs |].
    eapply Forall_impl; [| exact Hpast]. cbn; intros; lia.
  - pose proof (Hm a {| clock := r + _period (self s); ext := ext (world s) |})
      as Hclk; cbn in Hclk.
    rewrite Hq in *.
    inversion Hpast as [| ? ? _ Hpast']; subst.
    assert (Hall : Forall (fun t => t <= r + _period (self s)) q)
      by (eapply Forall_impl; [| exact Hpast']; cbn; intros; lia).
    split.
    + apply sorted_snoc; [eapply sorted_tail; exact Hs | exact Hall].
    + apply Forall_app; split.
      * eapply Forall_impl; [| exact Hall]. cbn; intros; lia.
      * repeat constructor. lia.
  - pose proof (Hm a {| clock := clock (world s) + d; ext := ext (world s) |})
      as Hclk; cbn in Hclk.
    rewrite Hq in *.
    inversion Hpast as [| ? ? _ Hpast']; subst.
    assert (Hall : Forall (fun t => t <= clock (world s) + d) q)
      by (eapply Forall_impl; [| exact Hpast']; cbn; intros; lia).
    split.
    + apply sorted_snoc; [eapply sorted_tail; exact Hs | exact Hall].
    + apply Forall_app; split.
      * eapply Forall_impl; [| exact Hall]. cbn; intros; lia.
      * repeat constructor. lia.
Qed.

(** *** Claims *)

(** C1.  Admission bound.  A limiter built with [count >= 1] and driven by
    any sequence of calls, under a clock that never runs backwards (the
    caller's delays are zero or more, zero included, and the wrapped
    operation does not rewind the clock): at the end of the sequence, and
    so at the end of each of its prefixes, at most [count] tracked
    records lie within [period] of the current instant, and no window
    [[lo, lo + period)] holds more than [count] of the admissions made. *)
Theorem admission_bound (g : operation A R E X) (count period : Z)
        (w : World X) (calls : list (Z * A)) :
  1 <= count ->
  monotone g ->
  Forall (fun c => 0 <= fst c) calls ->
  Z.of_nat
    (List.length
       (filter (within (clock (world (snd (run calls (boot g count period w)))))
                       period)
               (_requests (self (snd (run calls (boot g count period w)))))))
  <= count
  /\ forall lo,
       count_in lo period (stamps (fst (run calls (boot g count period w))))
       <= count.
Proof.
  intros H1 Hm Hds.
  destruct (@run_history calls (boot g count period w) [])
    as (old' & (Hs & Hpast & Hsize & Hfill & Hwin) & Heq); auto.
  { apply history_boot; lia. }
  destruct (run_config calls (boot g count period w)) as (Hc & Hp & _).
  cbn in Hc, Hp, Heq. rewrite Hc in Hsize, Hwin. rewrite Hp in Hwin.
  split.
  - pose proof (filter_length_le
                  (within (clock (world (snd (run calls (boot g count period w)))))
                          period)
                  (_requests (self (snd (run calls (boot g count period w))))))
      as Hle.
    lia.
  - intros lo. rewrite <- Heq. apply Hwin.
Qed.

(** C3.  No unnecessary delay.  Each of the first [count] calls made
    through a limiter since its construction, that is each call made
    while fewer than [count] calls have been admitted, does exactly two
    things: it records the instant of its arrival and invokes the wrapped
    operation.  It does not sleep and retires no record. *)
Theorem no_unnecessary_delay (g : operation A R E X) (count period : Z)
        (w : World X) (calls : list (Z * A)) :
  Forall (fun o => trace o = [Recorded (arrival o); Called (argument o)]
                   /\ imposed (trace o) = 0
                   /\ slept (trace o) = []
                   /\ retired (trace o) = [])
         (firstn (Z.to_nat count) (fst (run calls (boot g count period w)))).
Proof.
  destruct (Z.le_gt_cases 1 count) as [H1 | H0].
  - destruct (@run_shapes g count period w calls H1) as [Hf _].
    eapply Forall_impl; [| exact Hf].
    intros o [_ Ht]. rewrite Ht. cbn. auto.
  - replace (Z.to_nat count) with 0%nat by lia. constructor.
Qed.

(** C6.  Size of the deque.  For a limiter built with [count >= 1], after a
    sequence of [n] calls the deque holds [min n count] records, never
    more than [count]; each of the first [count] calls appends one record
    and removes none, and each later call removes exactly one record and
    appends exactly one. *)
Theorem tracker_size (g : operation A R E X) (count period : Z)
        (w : World X) (calls : list (Z * A)) :
  1 <= count ->
  Z.of_nat
    (List.length (_requests (self (snd (run calls (boot g count period w))))))
  = Z.min (Z.of_nat (List.length calls)) count
  /\ Forall (fun o => retired (trace o) = []
                      /\ List.length (recorded (trace o)) = 1%nat)
            (firstn (Z.to_nat count)
                    (fst (run calls (boot g count period w))))
  /\ Forall (fun o => List.length (retired (trace o)) = 1%nat
                      /\ List.length (recorded (trace o)) = 1%nat)
            (skipn (Z.to_nat count)
                   (fst (run calls (boot g count period w)))).
Proof.
  intros H1.
  destruct (@run_shapes g count period w calls H1) as [Hf Hs].
  repeat split.
  - rewrite run_size; cbn; lia.
  - eapply Forall_impl; [| exact Hf].
    intros o [_ Ht]. rewrite Ht. cbn. auto.
  - eapply Forall_impl; [| exact Hs].
    intros o Ho. apply steady_events in Ho
      as (r & q & _ & _ & Hr & _ & _ & Hrec).
    rewrite Hr, Hrec. cbn. auto.
Qed.

(** C9.  Configuration and the empty deque.  Constructing a limiter with
    [count <= 0] succeeds, and its first call, whatever its arguments and
    whenever it comes, raises the [IndexError] of [popleft] on an empty
    deque, before anything else is done.  With [count >= 1], whenever a
    call removes a record the deque holds exactly [count] records, and
    every call reaches the wrapped operation: the error is unreachable. *)
Theorem empty_deque_error :
  (forall (g : operation A R E X) count period w d a,
      count <= 0 ->
      _requests (__init__ g count period) = []
      /\ get a (elapse d (boot g count period w))
         = (Raise (IndexError "pop from an empty deque"), [],
            elapse d (boot g count period w)))
  /\ (forall (g : operation A R E X) count period w calls,
         1 <= count ->
         Forall (fun o =>
                   (retired (trace o) <> [] ->
                    Z.of_nat (List.length (pending o)) = count)
                   /\ called (trace o) = [argument o])
                (fst (run calls (boot g count period w)))).
Proof.
  split.
  - intros g count period w d a H0. split; [reflexivity |].
    destruct (get_cases a (elapse d (boot g count period w)))
      as [Hlt _ | _ _ Hg | r q Hq _ _ _ | r q Hq _ _ _];
      cbn in *; try lia; try discriminate.
    exact Hg.
  - intros g count period w calls H1.
    eapply Forall_impl; [| exact (@run_phase g count period w calls H1)].
    intros o [[_ Ht] | Ho].
    + rewrite Ht; cbn. split; [congruence | reflexivity].
    + apply steady_events in Ho as (r & q & _ & Hl & _ & Hc & _).
      auto.
Qed.

(** C2.  Delay correctness.  A call that finds [count] records in the
    deque, the oldest of them [r], at an instant [now < r + period],
    sleeps once, for exactly [r + period - now], and is recorded at
    [r + period].  In particular, in any unit of time [u], a limiter
    built with [count = 3] and [period = 10 u] whose calls arrive at
    [0, 0, 0, u] delays them by [0, 0, 0, 9 u] and admits them at
    [0, 0, 0, 10 u]. *)
Theorem delay_correctness :
  (forall (a : A) (s : state) r q,
      _requests (self s) = r :: q ->
      Z.of_nat (List.length (r :: q)) = _count (self s) ->
      clock (world s) < r + _period (self s) ->
      slept (snd (fst (get a s))) = [r + _period (self s) - clock (world s)]
      /\ imposed (snd (fst (get a s)))
         = r + _period (self s) - clock (world s)
      /\ recorded (snd (fst (get a s))) = [r + _period (self s)])
  /\ (forall (g : operation A R E X) w calls u,
         0 < u ->
         map (@arrival A R E) (fst (run calls (boot g 3 (10 * u) w)))
         = [0; 0; 0; u] ->
         map (fun o => imposed (trace o))
             (fst (run calls (boot g 3 (10 * u) w)))
         = [0; 0; 0; 9 * u]
         /\ stamps (fst (run calls (boot g 3 (10 * u) w)))
            = [0; 0; 0; 10 * u]).
Proof.
  split.
  - intros a s r q Hq Hlen Hnow.
    destruct (get_cases a s)
      as [Hlt _ | _ Hq' _ | r' q' Hq' _ _ Hg | r' q' Hq' _ Hp _].
    + rewrite Hq in Hlt; lia.
    + congruence.
    + rewrite Hq in Hq'; injection Hq' as <- <-.
      rewrite Hg; cbn. repeat split. lia.
    + rewrite Hq in Hq'; injection Hq' as <- <-. lia.
  - intros g w calls u Hu Harr.
    assert (Hdel : map (fun o => imposed (trace o))
                       (fst (run calls (boot g 3 (10 * u) w)))
                   = [0; 0; 0; 9 * u]).
    { rewrite run_schedule, Harr.
      cbn [boot self __init__ _count _period _requests].
      cbn [schedule List.length app].
      change (Z.of_nat 0 <? 3) with true.
      change (Z.of_nat 1 <? 3) with true.
      change (Z.of_nat 2 <? 3) with true.
      change (Z.of_nat 3 <? 3) with false.
      cbv iota.
      replace (u <? 0 + 10 * u) with true by (symmetry; apply Z.ltb_lt; lia).
      replace (0 + 10 * u - u) with (9 * u) by lia. reflexivity. }
    split; [exact Hdel |].
    rewrite stamps_arrival by lia.
    revert Harr Hdel.
    generalize (fst (run calls (boot g 3 (10 * u) w))).
    intros [| o1 [| o2 [| o3 [| o4 [| o5 os]]]]]; cbn [map];
      try discriminate.
    intros Ha Hd.
    assert (H1 : arrival o1 = 0 /\ imposed (trace o1) = 0)
      by (split; congruence).
    assert (H2 : arrival o2 = 0 /\ imposed (trace o2) = 0)
      by (split; congruence).
    assert (H3 : arrival o3 = 0 /\ imposed (trace o3) = 0)
      by (split; congruence).
    assert (H4 : arrival o4 = u /\ imposed (trace o4) = 9 * u)
      by (split; congruence).
    replace (arrival o1 + imposed (trace o1)) with 0 by lia.
    replace (arrival o2 + imposed (trace o2)) with 0 by lia.
    replace (arrival o3 + imposed (trace o3)) with 0 by lia.
    replace (arrival o4 + imposed (trace o4)) with (10 * u) by lia.
    reflexivity.
Qed.

(** C4.  Pass-through.  For a limiter with [count >= 1], a call to [get]
    ends the way the wrapped operation ends when it is given the same
    arguments, in the world the limiter hands over: same value returned,
    same exception raised.  The limiter invokes the operation exactly
    once, as its last step, and has not touched the external state
    before. *)
Theorem pass_through (a : A) (s : state) :
  1 <= _count (self s) ->
  exists tr s1,
    called tr = []
    /\ ext (world s1) = ext (world s)
    /\ get a s
       = (fst (_get (self s) a (world s1)), tr ++ [Called a],
          {| self := self s1; world := snd (_get (self s) a (world s1)) |}).
Proof.
  intros H1.
  destruct (get_cases a s)
    as [_ Hg | Hc _ _ | r q _ _ _ Hg | r q _ _ _ Hg]; try lia;
    rewrite Hg; unfold finish;
    match goal with
    | |- context [(_, ?tr ++ [Called a], {| self := self ?s1; world := _ |})] =>
        exists tr, s1
    end; cbn; auto.
Qed.

(** C5.  FIFO retirement.  A call that finds the deque at capacity
    retires exactly one record, the oldest [r]; the delay it undergoes is
    decided by [r], the period and the clock alone; it retires [r] also
    when no delay follows; and the remaining records keep their order,
    the new record going to the back. *)
Theorem fifo_retirement (a : A) (s : state) (r : Z) (q : list Z) :
  _requests (self s) = r :: q ->
  _count (self s) <= Z.of_nat (List.length (r :: q)) ->
  retired (snd (fst (get a s))) = [r]
  /\ imposed (snd (fst (get a s)))
     = (if clock (world s) <? r + _period (self s)
        then r + _period (self s) - clock (world s) else 0)
  /\ _requests (self (snd (get a s)))
     = q ++ [clock (world s) + imposed (snd (fst (get a s)))].
Proof.
  intros Hq Hlen.
  destruct (get_cases a s)
    as [Hlt _ | _ Hq' _ | r' q' Hq' _ Hw Hg | r' q' Hq' _ Hp Hg].
  - rewrite Hq in Hlt; lia.
  - congruence.
  - rewrite Hq in Hq'; injection Hq' as <- <-.
    apply Z.ltb_lt in Hw. rewrite Hg, Hw; cbn.
    repeat split; try lia. do 2 f_equal. lia.
  - rewrite Hq in Hq'; injection Hq' as <- <-.
    apply Z.ltb_ge in Hp. rewrite Hg, Hp; cbn.
    repeat split. do 2 f_equal. lia.
Qed.

(** C7.  Determinism.  Two limiters built with the same [count] and
    [period], whatever the operations they wrap, the worlds they run in
    and the delays of their callers: if their calls arrive at the same
    instants, they undergo the same delays. *)
Theorem same_arrivals_same_delays (g1 g2 : operation A R E X)
        (count period : Z) (w1 w2 : World X) (calls1 calls2 : list (Z * A)) :
  map (@arrival A R E) (fst (run calls1 (boot g1 count period w1)))
  = map (@arrival A R E) (fst (run calls2 (boot g2 count period w2))) ->
  map (fun o => imposed (trace o)) (fst (run calls1 (boot g1 count period w1)))
  = map (fun o => imposed (trace o))
        (fst (run calls2 (boot g2 count period w2))).
Proof.
  intros Harr. rewrite !run_schedule, Harr. reflexivity.
Qed.

(** C8 (as amended).  [get] logs exactly when it sleeps, that is when the
    deque is at capacity and [now < r + period] for its oldest record
    [r]: one record of level [INFO] whose argument is the delay.  Its
    message reads ["Waiting <delay>s so as to not go over the API rate
    limit"], the delay in seconds with three decimals.  A call that is
    not delayed logs nothing. *)
Theorem log_on_delay (a : A) (s : state) :
  let dt := hd 0 (_requests (self s)) + _period (self s) - clock (world s) in
  logged (snd (fst (get a s)))
  = (if delayed s
     then [{| levelname := INFO;
              msg := "Waiting %.3fs so as to not go over the API rate limit";
              args := [dt] |}]
     else [])
  /\ slept (snd (fst (get a s))) = (if delayed s then [dt] else [])
  /\ map getMessage (logged (snd (fst (get a s))))
     = (if delayed s
        then [String.append "Waiting "
                (String.append (format_3f dt)
                   "s so as to not go over the API rate limit")]
        else []).
Proof.
  cbn zeta.
  destruct (get_cases a s)
    as [Hlt Hg | Hc Hq Hg | r q Hq Hc Hw Hg | r q Hq Hc Hp Hg];
    rewrite Hg; clear Hg; unfold delayed.
  - apply Z.ltb_lt in Hlt. rewrite Hlt.
    destruct (_requests (self s)); cbn; repeat split.
  - rewrite Hq; cbn. repeat split.
  - apply Z.ltb_ge in Hc. apply Z.ltb_lt in Hw.
    rewrite Hq in *. rewrite Hc, Hw. cbn -[Z.add Z.sub].
    repeat split.
  - apply Z.ltb_ge in Hc. apply Z.ltb_ge in Hp.
    rewrite Hq in *. rewrite Hc, Hp. cbn.
    repeat split.
Qed.

(** C10.  Order of the deque.  Under a clock that never runs backwards
    (caller delays of zero or more, a wrapped operation that does not
    rewind the clock), the records of the deque are in non-decreasing
    order, oldest at the front, and none is later than the clock: this
    holds at construction and is kept by every sequence of calls. *)
Theorem deque_ordered :
  (forall (g : operation A R E X) count period w,
      ordered (boot g count period w))
  /\ (forall (s : state) (calls : list (Z * A)),
         ordered s ->
         monotone (_get (self s)) ->
         Forall (fun c => 0 <= fst c) calls ->
         ordered (snd (run calls s))).
Proof.
  split.
  - intros g count period w. split; constructor.
  - intros s calls Ho Hm Hds.
    destruct (@run_invariant (fun d => 0 <= d)
                (fun t => ordered t /\ _get (self t) = _get (self s))
                (fun _ => True))
      with (calls := calls) (s := s) as [[Hord _] _]; auto.
    intros d a t Hd [Hot Hgt].
    destruct (get_elapse_config d a t) as (_ & _ & Hg').
    split; [split | exact I]; [| congruence].
    apply get_ordered; [exact Hd | rewrite Hgt; exact Hm | exact Hot].
Qed.

End Facts.

(** ** Further facts on the limiter *)

Section Pace.

Variables A R E X : Type.

Local Notation "'state'" := (St A R E X).








(** X2.  One sleep at most.  A call sleeps at most once, and then for a
    strictly positive time: [time.sleep] is never asked for a zero or
    negative length, so it never raises. *)
Theorem sleeps_once_and_positive (a : A) (s : state) :
  slept (snd (fst (get a s))) = []
  \/ exists dt, slept (snd (fst (get a s))) = [dt] /\ 0 < dt.
Proof.
  destruct (get_cases a s)
    as [_ Hg | _ _ Hg | r q _ _ Hw Hg | r q _ _ _ Hg]; rewrite Hg; cbn;
    auto.
  right. eexists; split; [reflexivity | lia].
Qed.

(** X3.  No wait beyond one period.  Under a clock that never runs
    backwards, starting from a deque in order (a limiter just built, for
    one), no call of a sequence is delayed by more than [period]; and no
    delay is negative. *)
Theorem delay_within_period (s : state) (calls : list (Z * A)) :
  ordered s ->
  monotone (_get (self s)) ->
  Forall (fun c => 0 <= fst c) calls ->
  Forall (fun o => 0 <= imposed (trace o) <= Z.max 0 (_period (self s)))
         (fst (run calls s)).
Proof.
  intros Ho Hm Hds.
  destruct (@run_invariant A R E X (fun d => 0 <= d)
              (fun t => ordered t /\ _get (self t) = _get (self s)
                        /\ _period (self t) = _period (self s))
              (fun o => 0 <= imposed (trace o) <= Z.max 0 (_period (self s))))
    with (calls := calls) (s := s) as [_ HQ]; auto.
  intros d a t Hd (Hot & Hgt & Hpt).
  destruct (get_elapse_config d a t) as (_ & Hp' & Hg').
  split.
  - split; [| split; congruence].
    apply get_ordered; [exact Hd | rewrite Hgt; exact Hm | exact Hot].
  - unfold observe; cbn [trace].
    destruct Hot as [_ Hpast].
    destruct (get_cases a (elapse d t))
      as [_ Hg | _ _ Hg | r q Hq _ Hw Hg | r q _ _ _ Hg]; rewrite Hg;
      cbn -[Z.max Z.add] in *; try lia.
    rewrite Hq in Hpast. inversion Hpast; subst. lia.
Qed.

End Pace.

(** ** Labels *)

Lemma starts_with_iff (p s : string) :
  starts_with p s = true <-> exists t, s = String.append p t.
Proof.
  revert s; induction p as [| a p IH]; intros s; cbn.
  - split; [intros _; exists s; reflexivity | reflexivity].
  - destruct s as [| b s].
    + split; [discriminate | intros [t Ht]; discriminate].
    + rewrite andb_true_iff, Ascii.eqb_eq, IH.
      split.
      * intros [-> [t ->]]. exists t; reflexivity.
      * intros [t Ht]. injection Ht as -> ->. split; [reflexivity | eauto].
Qed.

(** [occurs] is Python's substring test. *)
Lemma occurs_iff (needle s : string) :
  occurs needle s = true
  <-> exists pre post,
        s = String.append pre (String.append needle post).
Proof.
  induction s as [| c s IH]; cbn [occurs]; rewrite orb_true_iff.
  - rewrite starts_with_iff. split.
    + intros [[t Ht] | H]; [| discriminate]. exists EmptyString, t. exact Ht.
    + intros ([| ? ?] & post & H); [| discriminate].
      left. exists post. exact H.
  - rewrite starts_with_iff, IH. split.
    + intros [[t Ht] | (pre & post & ->)].
      * exists EmptyString, t. exact Ht.
      * exists (String c pre), post. reflexivity.
    + intros ([| c' pre] & post & H).
      * left. exists post. exact H.
      * right. cbn in H. injection H as -> ->. eauto.
Qed.

Lemma sct_loop_named (labels : list json) (names : list string)
      (acc : list json) :
  Forall2 named labels names ->
  sct_loop labels acc
  = Ok (acc ++ map JStr (filter (occurs "sct_") names)).
Proof.
  intros H; revert acc; induction H as [| label name labels names Hn _ IH];
    intros acc.
  - cbn. now rewrite app_nil_r.
  - cbn [sct_loop filter]. unfold named in Hn. rewrite Hn. cbn [and_then py_in].
    destruct (occurs "sct_" name); cbn [map].
    + rewrite IH, <- app_assoc. reflexivity.
    + apply IH.
Qed.

Lemma compatibility_loop_named (labels : list json) (names : list string)
      (w : string) :
  Forall2 named labels names ->
  compatibility_loop labels w
  = Ok (if existsb (occurs "compatibility") names
        then breaks_compatibility else w).
Proof.
  intros H; revert w; induction H as [| label name labels names Hn _ IH];
    intros w.
  - reflexivity.
  - cbn [compatibility_loop existsb]. unfold named in Hn. rewrite Hn.
    cbn [and_then py_in].
    destruct (occurs "compatibility" name); cbn [orb]; rewrite IH.
    + now destruct (existsb _ names).
    + reflexivity.
Qed.

Lemma sct_labels_aux (labels : list json) (names : list string) :
  Forall2 named labels names ->
  get_sct_function_from_label (JList labels)
  = Ok (map JStr (filter (occurs "sct_") names)).
Proof. intros H. cbn. now rewrite (sct_loop_named [] H). Qed.

Lemma compat_labels_aux (labels : list json) (names : list string) :
  Forall2 named labels names ->
  check_compatibility (JList labels)
  = Ok (if existsb (occurs "compatibility") names
        then breaks_compatibility else "").
Proof. intros H. cbn. now rewrite (compatibility_loop_named "" H). Qed.

(** X4.  The labels of a pull request, each with a string for name, as
    GitHub sends them: [get_sct_function_from_label] returns the names
    that contain ["sct_"], all of them, in the order of the labels. *)
Theorem sct_labels_filtered (labels : list json) (names : list string) :
  Forall2 named labels names ->
  get_sct_function_from_label (JList labels)
  = Ok (map JStr (filter (occurs "sct_") names)).
Proof. intros H. cbn. now rewrite (sct_loop_named [] H). Qed.

(** X5.  On such labels [check_compatibility] returns the warning when
    the name of some label contains ["compatibility"], anywhere in it,
    and the empty string otherwise. *)
Theorem compatibility_warned (labels : list json) (names : list string) :
  Forall2 named labels names ->
  check_compatibility (JList labels)
  = Ok (if existsb (occurs "compatibility") names
        then "**WARNING: Breaks compatibility with previous versions of SCT.** "
        else "").
Proof. intros H. cbn. now rewrite (compatibility_loop_named "" H). Qed.

Lemma py_in_raise (n1 n2 : string) (v : json) (e : exn error) :
  py_in n1 v = Raise e <-> py_in n2 v = Raise e.
Proof. destruct v; cbn; split; intros H; try discriminate; exact H. Qed.

Lemma loops_raise_alike (labels : list json) (e : exn error) :
  forall acc w,
    sct_loop labels acc = Raise e <-> compatibility_loop labels w = Raise e.
Proof.
  induction labels as [| label labels IH]; intros acc w.
  - cbn; split; discriminate.
  - cbn [sct_loop compatibility_loop].
    destruct (getitem_key label "name") as [name | e'] eqn:Hname;
      cbn [and_then]; [| split; intros H; injection H as <-; reflexivity].
    destruct (py_in "sct_" name) as [b1 | e1] eqn:H1;
      destruct (py_in "compatibility" name) as [b2 | e2] eqn:H2;
      cbn [and_then].
    + destruct b1, b2; apply IH.
    + apply (py_in_raise "compatibility" "sct_") in H2. congruence.
    + apply (py_in_raise "sct_" "compatibility") in H1. congruence.
    + apply (py_in_raise "sct_" "compatibility") in H1.
      split; congruence.
Qed.

(** X6.  The two functions fail on the same inputs, with the same
    exception: whatever the document, [get_sct_function_from_label]
    raises [e] on it exactly when [check_compatibility] raises [e]. *)
Theorem labels_raise_alike (dict_labels : json) (e : exn error) :
  get_sct_function_from_label dict_labels = Raise e
  <-> check_compatibility dict_labels = Raise e.
Proof.
  unfold get_sct_function_from_label, check_compatibility.
  destruct (py_iter dict_labels) as [labels | e']; cbn [and_then].
  - apply loops_raise_alike.
  - split; intros H; injection H as <-; reflexivity.
Qed.

Lemma sct_loop_acc (labels acc : list json) :
  sct_loop labels acc
  = and_then (sct_loop labels []) (fun r => Ok (acc ++ r)).
Proof.
  revert acc; induction labels as [| label labels IH]; intros acc.
  - cbn. now rewrite app_nil_r.
  - cbn [sct_loop].
    destruct (getitem_key label "name") as [name | e]; cbn [and_then];
      [| reflexivity].
    destruct (py_in "sct_" name) as [[|] | e]; cbn [and_then];
      try reflexivity; [| apply IH].
    rewrite IH, (IH ([] ++ [name])).
    destruct (sct_loop labels []); cbn; [| reflexivity].
    now rewrite <- app_assoc.
Qed.

Lemma sct_loop_app (l1 l2 acc : list json) :
  sct_loop (l1 ++ l2) acc = and_then (sct_loop l1 acc) (sct_loop l2).
Proof.
  revert acc; induction l1 as [| label l1 IH]; intros acc.
  - reflexivity.
  - cbn [app sct_loop].
    destruct (getitem_key label "name") as [name | e]; cbn [and_then];
      [| reflexivity].
    destruct (py_in "sct_" name) as [[|] | e]; cbn [and_then];
      try reflexivity; apply IH.
Qed.

(** X7.  Labels put end to end.  The function names of two lists of
    labels put end to end are those of the first followed by those of
    the second; and the call fails when either part makes it fail, with
    the exception of the first part that does. *)
Theorem sct_labels_app (l1 l2 : list json) :
  get_sct_function_from_label (JList (l1 ++ l2))
  = and_then (get_sct_function_from_label (JList l1))
      (fun r1 => and_then (get_sct_function_from_label (JList l2))
                   (fun r2 => Ok (r1 ++ r2))).
Proof.
  cbn. rewrite sct_loop_app.
  destruct (sct_loop l1 []) as [r1 | e]; cbn [and_then]; [| reflexivity].
  apply sct_loop_acc.
Qed.

(** X8.  A label without name.  When a label with no ["name"] follows
    labels that have one, both functions raise [KeyError] for ["name"]:
    the names found before it are lost, and the labels after it are not
    looked at. *)
Theorem label_without_name (good : list json) (names : list string)
        (d : list (string * json)) (rest : list json) :
  Forall2 named good names ->
  lookup "name" d = None ->
  get_sct_function_from_label (JList (good ++ JDict d :: rest))
  = Raise (Failure (KeyError (JStr "name")))
  /\ check_compatibility (JList (good ++ JDict d :: rest))
     = Raise (Failure (KeyError (JStr "name"))).
Proof.
  intros Hgood Hd.
  assert (Hsct : get_sct_function_from_label (JList (good ++ JDict d :: rest))
                 = Raise (Failure (KeyError (JStr "name")))).
  { cbn. rewrite sct_loop_app, (sct_loop_named [] Hgood). cbn. now rewrite Hd. }
  split; [exact Hsct |].
  cbn in Hsct |- *.
  apply (loops_raise_alike (good ++ JDict d :: rest) _ [] ""). exact Hsct.
Qed.

(** No labels given.  Called without argument, that is on the empty
    string, the functions return the empty list and the empty string; on
    any other string they raise [TypeError]. *)
Lemma labels_of_a_string (s : string) :
  get_sct_function_from_label (JStr s)
  = (if String.eqb s "" then Ok [] else Raise (Failure TypeError))
  /\ check_compatibility (JStr s)
     = (if String.eqb s "" then Ok "" else Raise (Failure TypeError)).
Proof. destruct s; split; reflexivity. Qed.

(** ** Lines and titles *)

Lemma join_strings (sep : string) (l : list string) :
  join sep (map JStr l) = Ok (concat_with sep l).
Proof.
  induction l as [| a l IH]; [reflexivity |].
  destruct l as [| b l]; [reflexivity |].
  cbn [map] in *. cbn [join concat_with]. cbn [join] in IH. rewrite IH.
  reflexivity.
Qed.

Lemma replace_from_absent (old new s : string) :
  old <> EmptyString -> occurs old s = false ->
  replace_from old new 0 s = s.
Proof.
  intros Hold. induction s as [| c s IH]; [reflexivity |].
  cbn [occurs replace_from]. intros H.
  apply orb_false_iff in H as [Hp Ho]. rewrite Hp, (IH Ho). reflexivity.
Qed.

(** X9.  The line of a pull request whose labels and fields are as
    GitHub sends them.  With names of functions among the labels, the
    line starts with them, in bold and separated by commas.  With none,
    the line starts with the title, and every ["**:** "] found in what
    follows, the title included, is taken out of it. *)
Theorem line_of_a_pull_request (repr_of : json -> string) (x : json)
        (labels : list json) (names : list string) (title html_url : json) :
  getitem_key x "labels" = Ok (JList labels) ->
  Forall2 named labels names ->
  getitem_key x "title" = Ok title ->
  getitem_key x "html_url" = Ok html_url ->
  let rest :=
    String.append (py_str repr_of title)
      (String.append ". "
         (String.append
            (if existsb (occurs "compatibility") names
             then breaks_compatibility else "")
            (String.append "[View pull request]("
               (String.append (py_str repr_of html_url) ")")))) in
  item_line repr_of x
  = Ok match filter (occurs "sct_") names with
       | [] => String.append " - " (replace "**:** " "" rest)
       | functions =>
           String.append " - **"
             (String.append (concat_with "," functions)
                (String.append ":** " rest))
       end.
Proof.
  intros Hl Hn Ht Hu rest. unfold item_line.
  rewrite Hl, Ht, Hu. cbn [and_then].
  rewrite (sct_labels_aux Hn), (compat_labels_aux Hn). cbn [and_then].
  rewrite join_strings. cbn [and_then]. rewrite length_map.
  destruct (filter (occurs "sct_") names) as [| f fs]; reflexivity.
Qed.

(** X10.  A pull request without name of function whose title, warning
    and address hold no ["**:** "] has the line one expects: a dash, the
    title, the warning if any, and the link. *)
Theorem plain_line_of_a_pull_request (repr_of : json -> string) (x : json)
        (labels : list json) (names : list string) (title html_url : json) :
  getitem_key x "labels" = Ok (JList labels) ->
  Forall2 named labels names ->
  getitem_key x "title" = Ok title ->
  getitem_key x "html_url" = Ok html_url ->
  filter (occurs "sct_") names = [] ->
  let rest :=
    String.append (py_str repr_of title)
      (String.append ". "
         (String.append
            (if existsb (occurs "compatibility") names
             then breaks_compatibility else "")
            (String.append "[View pull request]("
               (String.append (py_str repr_of html_url) ")")))) in
  occurs "**:** " rest = false ->
  item_line repr_of x = Ok (String.append " - " rest).
Proof.
  intros Hl Hn Ht Hu Hf rest Hrest. unfold item_line.
  rewrite Hl, Ht, Hu. cbn [and_then].
  rewrite (sct_labels_aux Hn), (compat_labels_aux Hn). cbn [and_then].
  rewrite join_strings. cbn [and_then]. rewrite length_map, Hf.
  cbn [List.length Nat.eqb concat_with].
  fold rest.
  change (replace "**:** " ""
            (String.append " - **" (String.append "" (String.append ":** " rest))))
    with (String.append " - " (replace_from "**:** " "" 0 rest)).
  rewrite replace_from_absent; [reflexivity | discriminate | exact Hrest].
Qed.

Lemma append_empty (a b : string) :
  String.append a b = EmptyString -> a = EmptyString /\ b = EmptyString.
Proof. destruct a; cbn; [auto | discriminate]. Qed.

Lemma append_assoc (a b c : string) :
  String.append (String.append a b) c = String.append a (String.append b c).
Proof. induction a as [| x a IH]; cbn; [| rewrite IH]; reflexivity. Qed.

Lemma append_nil_r (a : string) : String.append a "" = a.
Proof. induction a as [| x a IH]; cbn; [| rewrite IH]; reflexivity. Qed.

(** A string that starts with an ASCII character starts with whitespace
    when that character is an ASCII whitespace, and only then. *)
Lemma space_width_ascii (c : ascii) (rest : string) :
  (N_of_ascii c <? 128)%N = true ->
  space_width (String c rest) = if is_space c then 1%nat else 0%nat.
Proof.
  intros Hc. apply N.ltb_lt in Hc. cbn [space_width].
  destruct (is_space c); [reflexivity |].
  destruct rest as [| c1 r1]; [reflexivity |].
  replace (N_of_ascii c =? 194)%N with false by (symmetry; apply N.eqb_neq; lia).
  cbn [andb].
  destruct r1 as [| c2 r2]; [reflexivity |].
  replace (N_of_ascii c =? 225)%N with false by (symmetry; apply N.eqb_neq; lia).
  replace (N_of_ascii c =? 226)%N with false by (symmetry; apply N.eqb_neq; lia).
  replace (N_of_ascii c =? 227)%N with false by (symmetry; apply N.eqb_neq; lia).
  reflexivity.
Qed.

Lemma is_space_ascii (c : ascii) :
  is_space c = true -> (N_of_ascii c <? 128)%N = true.
Proof.
  unfold is_space. intros H. apply N.ltb_lt.
  apply orb_true_iff in H as [H | H]; apply andb_true_iff in H as [_ H];
    apply N.leb_le in H; lia.
Qed.

(** A whitespace character found before an ASCII character [c] ends
    before it. *)
Lemma space_width_before (x : ascii) (s : string) (c : ascii) (w : string)
      (k : nat) :
  (N_of_ascii c <? 128)%N = true ->
  space_width (String x (String.append s (String c w))) = S k ->
  (k <= String.length s)%nat.
Proof.
  intros Hc. apply N.ltb_lt in Hc. cbn [space_width].
  destruct (is_space x); [intros H; injection H as <-; lia |].
  destruct s as [| y s]; cbn [String.append String.length].
  - replace (N_of_ascii c =? 133)%N with false
      by (symmetry; apply N.eqb_neq; lia).
    replace (N_of_ascii c =? 160)%N with false
      by (symmetry; apply N.eqb_neq; lia).
    rewrite andb_false_r.
    replace (N_of_ascii c =? 154)%N with false
      by (symmetry; apply N.eqb_neq; lia).
    replace (N_of_ascii c =? 128)%N with false
      by (symmetry; apply N.eqb_neq; lia).
    replace (N_of_ascii c =? 129)%N with false
      by (symmetry; apply N.eqb_neq; lia).
    rewrite !andb_false_r. cbn [andb orb].
    destruct w; discriminate.
  - destruct ((N_of_ascii x =? 194)%N
              && ((N_of_ascii y =? 133)%N || (N_of_ascii y =? 160)%N));
      [intros H; injection H as <-; lia |].
    destruct s as [| z s]; cbn [String.append String.length].
    + replace (N_of_ascii c =? 128)%N with false
        by (symmetry; apply N.eqb_neq; lia).
      replace (N_of_ascii c =? 159)%N with false
        by (symmetry; apply N.eqb_neq; lia).
      replace (N_of_ascii c =? 168)%N with false
        by (symmetry; apply N.eqb_neq; lia).
      replace (N_of_ascii c =? 169)%N with false
        by (symmetry; apply N.eqb_neq; lia).
      replace (N_of_ascii c =? 175)%N with false
        by (symmetry; apply N.eqb_neq; lia).
      replace (128 <=? N_of_ascii c)%N with false
        by (symmetry; apply N.leb_gt; lia).
      rewrite !andb_false_r. cbn [andb orb]. discriminate.
    + match goal with
      | |- (if ?b then _ else _) = _ -> _ => destruct b
      end; intros H; [injection H as <-; lia | discriminate].
Qed.

Lemma split_from_word (w acc : string) :
  is_ascii w = true -> no_space w = true ->
  split_from 0 w acc
  = if String.eqb (String.append acc w) "" then []
    else [String.append acc w].
Proof.
  revert acc; induction w as [| c w IH]; intros acc Ha Hw.
  - cbn. now rewrite append_nil_r.
  - cbn in Ha, Hw. apply andb_true_iff in Ha as [Hca Ha].
    apply andb_true_iff in Hw as [Hc Hw]. apply negb_true_iff in Hc.
    cbn [split_from]. rewrite (@space_width_ascii c _ Hca), Hc.
    rewrite (IH _ Ha Hw), append_assoc. reflexivity.
Qed.

Lemma split_from_last (c : ascii) (w : string) :
  is_space c = true ->
  is_ascii w = true -> no_space w = true -> w <> EmptyString ->
  forall s skip acc,
    (skip <= String.length s)%nat ->
    exists front,
      split_from skip (String.append s (String c w)) acc = front ++ [w].
Proof.
  intros Hc Ha Hw Hne.
  pose proof (is_space_ascii _ Hc) as Hca.
  induction s as [| x s IH]; intros skip acc Hskip.
  - cbn in Hskip. assert (skip = 0%nat) by lia. subst skip.
    cbn [String.append split_from]. rewrite (@space_width_ascii c _ Hca), Hc.
    rewrite (@split_from_word w "" Ha Hw). cbn [String.append].
    destruct (String.eqb w "") eqn:He;
      [apply String.eqb_eq in He; contradiction |].
    destruct (String.eqb acc "");
      [exists [] | exists [acc]]; reflexivity.
  - cbn [String.append split_from]. cbn [String.length] in Hskip.
    destruct skip as [| k].
    + destruct (space_width (String x (String.append s (String c w))))
        as [| k] eqn:Hwd.
      * apply IH. lia.
      * apply (space_width_before _ _ _ _ Hca) in Hwd.
        destruct (String.eqb acc "").
        -- apply IH. exact Hwd.
        -- destruct (IH k EmptyString Hwd) as (front & ->).
           exists (acc :: front). reflexivity.
    + apply IH. lia.
Qed.

Lemma split_from_blank (s : string) :
  all_space s = true -> split_from 0 s "" = [].
Proof.
  induction s as [| c s IH]; [reflexivity |].
  cbn [all_space split_from]. intros H.
  apply andb_true_iff in H as [Hc Hs].
  rewrite (@space_width_ascii c _ (is_space_ascii c Hc)), Hc.
  apply IH, Hs.
Qed.

(** X11.  The release a milestone stands for.  When the title of the
    milestone ends with a word of ASCII characters, after an ASCII
    whitespace or on its own, that word is the release; when the title
    is empty or blank, there is no release and the script stops on
    [IndexError]. *)
Theorem release_is_the_last_word (milestone : json) :
  (forall s c w,
      getitem_key milestone "title" = Ok (JStr (String.append s (String c w))) ->
      is_space c = true ->
      is_ascii w = true -> no_space w = true -> w <> EmptyString ->
      release_of milestone = Ok w)
  /\ (forall w,
         getitem_key milestone "title" = Ok (JStr w) ->
         is_ascii w = true -> no_space w = true -> w <> EmptyString ->
         release_of milestone = Ok w)
  /\ (forall s,
         getitem_key milestone "title" = Ok (JStr s) ->
         all_space s = true ->
         release_of milestone = Raise (IndexError "list index out of range")).
Proof.
  repeat split.
  - intros s c w Ht Hc Ha Hw Hne. unfold release_of. rewrite Ht.
    cbn [and_then]. unfold split.
    destruct (@split_from_last c w Hc Ha Hw Hne s 0%nat EmptyString)
      as (front & ->); [lia |].
    rewrite rev_app_distr. reflexivity.
  - intros w Ht Ha Hw Hne. unfold release_of. rewrite Ht.
    cbn [and_then]. unfold split. rewrite (@split_from_word w "" Ha Hw).
    cbn [String.append].
    destruct (String.eqb w "") eqn:He;
      [apply String.eqb_eq in He; contradiction | reflexivity].
  - intros s Ht Hs. unfold release_of. rewrite Ht.
    cbn [and_then]. unfold split. now rewrite split_from_blank.
Qed.

(** ** The script as a caller of the limiter *)

Section Driving.

Variable X : Type.
Variable repr_of : json -> string.
Variable iso_date : Z -> string.
Variable set_order : list json -> list json.

Local Notation "'machine'" := (St Request Response error X).

Lemma elapse_0 (s : machine) : elapse 0 s = s.
Proof.
  destruct s as [l [c x]]. unfold elapse, set_clock; cbn.
  now rewrite Z.add_0_r.
Qed.

Lemma net_app (o1 o2 : list output) : net (o1 ++ o2) = net o1 ++ net o2.
Proof. apply flat_map_app. Qed.

Lemma net_map (tr : list (event Request)) : net (map Net tr) = tr.
Proof.
  induction tr as [| e tr IH]; [reflexivity |].
  change (net (map Net (e :: tr))) with (e :: net (map Net tr)).
  now rewrite IH.
Qed.

Lemma drives_still {T} (m : Script X T) :
  (forall s, snd (m s) = s /\ net (snd (fst (m s))) = []) -> drives 0 m.
Proof.
  intros H s. exists []. destruct (H s) as [Hs Hn].
  repeat split; auto.
Qed.

Lemma drives_done {T} (x : T) : drives 0 (done (X := X) x).
Proof. apply drives_still; intros s; split; reflexivity. Qed.

Lemma drives_pure {T} (r : result error T) : drives 0 (pure (X := X) r).
Proof. apply drives_still; intros s; split; reflexivity. Qed.

Lemma drives_emit (o : output) :
  (forall e, o <> Net e) -> drives 0 (emit (X := X) o).
Proof.
  intros Ho. apply drives_still; intros s; split; [reflexivity |].
  destruct o; cbn; try reflexivity. now destruct (Ho e).
Qed.

Lemma drives_date : drives 0 (date_today (X := X) iso_date).
Proof. apply drives_still; intros s; split; reflexivity. Qed.

Lemma drives_requests_get (r : Request) : drives 1 (requests_get (X := X) r).
Proof.
  intros s. exists [(0, r)]. repeat split; auto.
  - rewrite run_cons; cbn [fst snd flat_map run]. unfold observe; cbn [trace].
    rewrite elapse_0, app_nil_r. unfold requests_get.
    destruct (get r s) as [[o tr] s1]; cbn. apply net_map.
  - rewrite run_cons; cbn [fst snd run].
    rewrite elapse_0. unfold requests_get.
    destruct (get r s) as [[o tr] s1]; reflexivity.
Qed.

Lemma drives_weaken {T} (n n' : nat) (m : Script X T) :
  (n <= n')%nat -> drives n m -> drives n' m.
Proof.
  intros Hle H s. destruct (H s) as (calls & Hl & Hz & Hn & Hs).
  exists calls. repeat split; auto. lia.
Qed.

Lemma drives_seq {T U} (n1 n2 : nat) (m : Script X T) (k : T -> Script X U) :
  drives n1 m -> (forall x, drives n2 (k x)) -> drives (n1 + n2) (seq m k).
Proof.
  intros Hm Hk s. destruct (Hm s) as (c1 & Hl1 & Hz1 & Hn1 & Hs1).
  unfold seq. destruct (m s) as [[[x | e] out] s1]; cbn [fst snd] in *.
  - destruct (Hk x s1) as (c2 & Hl2 & Hz2 & Hn2 & Hs2).
    destruct (k x s1) as [[o out'] s2]; cbn [fst snd] in *.
    exists (c1 ++ c2). rewrite run_app; cbn [fst snd].
    rewrite <- Hs1. repeat split.
    + rewrite length_app. lia.
    + apply Forall_app; auto.
    + rewrite net_app, flat_map_app. congruence.
    + exact Hs2.
  - exists c1. repeat split; auto. lia.
Qed.

(** One step of a computation that sends nothing, then the rest. *)
Ltac quiet_step :=
  first
    [ apply drives_done
    | apply drives_pure
    | apply drives_date
    | apply drives_emit; intros ?; discriminate ].

Ltac drive :=
  repeat
    match goal with
    | |- drives _ (let _ := _ in _) => cbv zeta
    | |- drives _ (if ?b then _ else _) => destruct b
    | |- drives ?n (seq (requests_get _) _) =>
        apply (@drives_seq _ _ 1 (pred n)); [apply drives_requests_get | intros ?]
    | |- drives ?n (seq _ _) =>
        apply (@drives_seq _ _ 0 n); [solve [quiet_step] | intros ?]
    | |- drives _ _ => solve [quiet_step]
    | |- drives (S ?n) _ =>
        apply (@drives_weaken _ 0 (S n)); [lia | solve [quiet_step]]
    end.

Lemma drives_latest_milestone : drives 1 (@latest_milestone X).
Proof. unfold latest_milestone. drive. Qed.

Lemma drives_detailed_changelog (new_tag : json) :
  drives 1 (@detailed_changelog X repr_of new_tag).
Proof. unfold detailed_changelog. drive. Qed.

Lemma drives_search (milestone : json) (label : string) :
  drives 1 (@search X repr_of milestone label).
Proof. unfold search. drive. Qed.

Lemma drives_labelled (milestone : json) (label : string)
      (lines : list string) (changelog_pr : list json) :
  drives 1 (@labelled X repr_of milestone label lines changelog_pr).
Proof.
  unfold labelled.
  apply (@drives_seq _ _ 0 1); [solve [quiet_step] | intros title].
  apply (@drives_seq _ _ 1 0); [apply drives_search | intros pulls].
  drive.
Qed.

Lemma drives_for_labels (milestone : json) (labels : list string) :
  forall lines changelog_pr,
    drives (List.length labels)
           (@for_labels X repr_of milestone labels lines changelog_pr).
Proof.
  induction labels as [| label labels IH]; intros lines changelog_pr;
    cbn [for_labels List.length].
  - apply drives_done.
  - apply (@drives_seq _ _ 1 (List.length labels));
      [apply drives_labelled | intros acc; apply IH].
Qed.

Lemma drives_warn_each (diff_pr : list json) : drives 0 (@warn_each X diff_pr).
Proof.
  induction diff_pr as [| diff rest IH]; cbn [warn_each].
  - apply drives_done.
  - apply (@drives_seq _ _ 0 0); [quiet_step | intros _; exact IH].
Qed.

Lemma main_drives_aux (s : machine) :
  exists calls,
    (List.length calls <= 9)%nat
    /\ Forall (fun c => fst c = 0) calls
    /\ net (snd (fst (main repr_of iso_date set_order s)))
       = flat_map (@trace Request Response error) (fst (run calls s))
    /\ snd (main repr_of iso_date set_order s) = snd (run calls s).
Proof.
  revert s. change (drives 9 (@main X repr_of iso_date set_order)).
  unfold main.
  apply (@drives_seq _ _ 1 8); [apply drives_latest_milestone | intros m].
  apply (@drives_seq _ _ 0 8); [quiet_step | intros title].
  apply (@drives_seq _ _ 0 8); [quiet_step | intros today].
  cbv zeta.
  apply (@drives_seq _ _ 1 7); [apply drives_detailed_changelog | intros c].
  apply (@drives_seq _ _ 6 1);
    [apply (@drives_for_labels m
              ["bug"; "enhancement"; "feature"; "documentation";
               "installation"; "testing"]) | intros acc].
  apply (@drives_seq _ _ 0 1); [quiet_step | intros _].
  apply (@drives_seq _ _ 0 1); [quiet_step | intros t].
  apply (@drives_seq _ _ 1 0); [apply drives_search | intros pulls].
  apply (@drives_seq _ _ 0 0); [quiet_step | intros items].
  apply (@drives_seq _ _ 0 0); [quiet_step | intros xs].
  apply (@drives_seq _ _ 0 0); [quiet_step | intros urls].
  apply (@drives_seq _ _ 0 0); [quiet_step | intros all_pr].
  apply (@drives_seq _ _ 0 0); [apply drives_warn_each | intros _].
  drive.
Qed.

(** X13.  The script as a caller.  Whatever GitHub answers and however a
    run of the script ends, what it does to the limiter is what a caller
    does that issues at most nine calls one after the other with no
    delay of its own: the events of the limiter and the state the run
    ends in are those of such a sequence of calls. *)
Theorem main_drives_the_limiter (s : machine) :
  exists calls,
    (List.length calls <= 9)%nat
    /\ Forall (fun c => fst c = 0) calls
    /\ net (snd (fst (main repr_of iso_date set_order s)))
       = flat_map (@trace Request Response error) (fst (run calls s))
    /\ snd (main repr_of iso_date set_order s) = snd (run calls s).
Proof. exact (main_drives_aux s). Qed.



(** *** What the script writes *)

Lemma written_app (o1 o2 : list output) :
  written (o1 ++ o2) = written o1 ++ written o2.
Proof. apply flat_map_app. Qed.

Lemma written_net (tr : list (event Request)) : written (map Net tr) = [].
Proof. induction tr as [| e tr IH]; [reflexivity | exact IH]. Qed.

Lemma nothing_seq {T U} (m : Script X T) (k : T -> Script X U) :
  writes_nothing m -> (forall x, writes_nothing (k x)) ->
  writes_nothing (seq m k).
Proof.
  intros Hm Hk s. specialize (Hm s). unfold seq.
  destruct (m s) as [[[x | e] out] s1]; cbn [fst snd] in *; [| exact Hm].
  specialize (Hk x s1). destruct (k x s1) as [[o out'] s2]; cbn [fst snd] in *.
  now rewrite written_app, Hm, Hk.
Qed.


Lemma nothing_requests_get (r : Request) :
  writes_nothing (requests_get (X := X) r).
Proof.
  intros s. unfold requests_get.
  destruct (get r s) as [[o tr] s1]; cbn. apply written_net.
Qed.

Ltac silent :=
  repeat
    match goal with
    | |- writes_nothing (let _ := _ in _) => cbv zeta
    | |- writes_nothing (if ?b then _ else _) => destruct b
    | |- writes_nothing (seq _ _) => apply nothing_seq; [| intros ?]
    | |- writes_nothing (requests_get _) => apply nothing_requests_get
    | |- writes_nothing _ => solve [intros ?; reflexivity]
    end.

Lemma nothing_latest_milestone : writes_nothing (@latest_milestone X).
Proof. unfold latest_milestone. silent. Qed.

Lemma nothing_detailed_changelog (new_tag : json) :
  writes_nothing (@detailed_changelog X repr_of new_tag).
Proof. unfold detailed_changelog. silent. Qed.

Lemma nothing_search (milestone : json) (label : string) :
  writes_nothing (@search X repr_of milestone label).
Proof. unfold search. silent. Qed.

Lemma nothing_labelled (milestone : json) (label : string)
      (lines : list string) (changelog_pr : list json) :
  writes_nothing (@labelled X repr_of milestone label lines changelog_pr).
Proof.
  unfold labelled.
  apply nothing_seq; [silent | intros title].
  apply nothing_seq; [apply nothing_search | intros pulls].
  silent.
Qed.

Lemma nothing_for_labels (milestone : json) (labels : list string) :
  forall lines changelog_pr,
    writes_nothing (@for_labels X repr_of milestone labels lines changelog_pr).
Proof.
  induction labels as [| label labels IH]; intros lines changelog_pr;
    cbn [for_labels].
  - silent.
  - apply nothing_seq; [apply nothing_labelled | intros acc; apply IH].
Qed.



(** *** Runs that end well *)

Lemma seq_ok {T U} (m : Script X T) (k : T -> Script X U) (s s' : machine)
      (y : U) (out : list output) :
  seq m k s = (Ok y, out, s') ->
  exists x out1 s1 out2,
    m s = (Ok x, out1, s1) /\ k x s1 = (Ok y, out2, s') /\ out = out1 ++ out2.
Proof.
  unfold seq. destruct (m s) as [[[x | e] out1] s1]; [| discriminate].
  destruct (k x s1) as [[o out2] s2] eqn:Hk. intros H.
  injection H as -> <- <-. exists x, out1, s1, out2. auto.
Qed.

Lemma pure_ok {T} (r : result error T) (s s' : machine) (x : T)
      (out : list output) :
  pure r s = (Ok x, out, s') -> r = Ok x /\ out = [] /\ s' = s.
Proof. unfold pure. intros H; injection H as -> <- <-. auto. Qed.

Lemma emit_ok (o : output) (s s' : machine) (x : unit) (out : list output) :
  emit o s = (Ok x, out, s') -> out = [o] /\ s' = s.
Proof. unfold emit. intros H; injection H as _ <- <-. auto. Qed.

Lemma done_ok {T} (v : T) (s s' : machine) (x : T) (out : list output) :
  done v s = (Ok x, out, s') -> x = v /\ out = [] /\ s' = s.
Proof. unfold done. intros H; injection H as <- <- <-. auto. Qed.

Lemma sent_app (o1 o2 : list output) : sent (o1 ++ o2) = sent o1 ++ sent o2.
Proof. apply flat_map_app. Qed.

Lemma sent_called (tr : list (event Request)) :
  sent (map Net tr) = called tr.
Proof.
  induction tr as [| e tr IH]; [reflexivity |].
  cbn [map]. unfold sent in *. cbn [flat_map]. rewrite IH.
  destruct e; reflexivity.
Qed.

Lemma requests_get_ok (r : Request) (s s' : machine) (resp : Response)
      (out : list output) :
  requests_get r s = (Ok resp, out, s') -> sent out = [r].
Proof.
  unfold requests_get. destruct (get r s) as [[o tr] s1] eqn:Hget.
  intros H; injection H as -> <- <-. rewrite sent_called.
  destruct (get_cases r s)
    as [_ Hg | _ _ Hg | ? ? _ _ _ Hg | ? ? _ _ _ Hg];
    rewrite Hg in Hget; unfold finish in Hget; try discriminate Hget;
    injection Hget as _ <- _; reflexivity.
Qed.

(** Inverting one step of a run that ended well. *)
Ltac step H x :=
  let out1 := fresh "out" in
  let s1 := fresh "s" in
  let out2 := fresh "out" in
  let H1 := fresh "H" x in
  apply seq_ok in H as (x & out1 & s1 & out2 & H1 & H & ->);
  first
    [ apply pure_ok in H1 as (H1 & -> & ->)
    | apply emit_ok in H1 as (-> & ->)
    | idtac ].


Lemma warned_app (o1 o2 : list output) :
  warned (o1 ++ o2) = warned o1 ++ warned o2.
Proof. apply flat_map_app. Qed.

Lemma warned_net (tr : list (event Request)) : warned (map Net tr) = [].
Proof. induction tr as [| e tr IH]; [reflexivity | exact IH]. Qed.

(** What a request that went well has done and returned. *)
Lemma requests_get_inv (r : Request) (s s' : machine) (resp : Response)
      (out : list output) :
  requests_get r s = (Ok resp, out, s') ->
  sent out = [r] /\ warned out = []
  /\ _get (self s') = _get (self s)
  /\ exists w, fst (_get (self s) r w) = Ok resp.
Proof.
  intros H. split; [eapply requests_get_ok; exact H |].
  unfold requests_get in H.
  pose proof (get_config r s) as (_ & _ & Hcfg).
  destruct (get_cases r s)
    as [_ Hg | _ _ Hg | ? ? _ _ _ Hg | ? ? _ _ _ Hg];
    rewrite Hg in H, Hcfg; unfold finish in H, Hcfg; cbn [fst snd] in *;
    try discriminate H;
    injection H as Hresp <- <-;
    (split; [reflexivity | split; [exact Hcfg | eauto]]).
Qed.

Lemma detailed_changelog_ok (new_tag : json) (s s' : machine) (c : string)
      (out : list output) :
  detailed_changelog repr_of new_tag s = (Ok c, out, s') ->
  sent out = [releases_request] /\ warned out = []
  /\ _get (self s') = _get (self s)
  /\ exists previous_tag,
       c = String.append
             "https://github.com/spinalcordtoolbox/spinalcordtoolbox/compare/"
             (String.append (py_str repr_of previous_tag)
                (String.append "..." (py_str repr_of new_tag))).
Proof.
  unfold detailed_changelog; cbv zeta. intros H.
  step H response. apply requests_get_inv in Hresponse as (Hs & Hw & Hg & _).
  step H data. step H head0. step H previous_tag.
  apply done_ok in H as (-> & -> & ->).
  rewrite !sent_app, !warned_app, Hs, Hw.
  repeat split; auto. eauto.
Qed.

Lemma search_ok (milestone : json) (label : string) (s s' : machine)
      (data : json) (out : list output) :
  search repr_of milestone label s = (Ok data, out, s') ->
  sent out = [search_request repr_of milestone label] /\ warned out = []
  /\ _get (self s') = _get (self s)
  /\ exists resp w,
       fst (_get (self s) (search_request repr_of milestone label) w)
       = Ok resp
       /\ decoded resp = Ok data
       /\ exists d, data = JDict d.
Proof.
  unfold search; cbv zeta. intros H.
  step H response. apply requests_get_inv in Hresponse as (Hs & Hw & Hg & w & Hr).
  step H data0. step H total_count. step H u0.
  apply done_ok in H as (-> & -> & ->).
  rewrite !sent_app, !warned_app, Hs, Hw.
  repeat split; auto. exists response, w. repeat split; auto.
  destruct data0; try discriminate Htotal_count. eauto.
Qed.

Lemma latest_milestone_ok (s s' : machine) (m : json) (out : list output) :
  latest_milestone s = (Ok m, out, s') ->
  sent out = [milestones_request]
  /\ warned out = []
  /\ _get (self s') = _get (self s)
  /\ exists t resp w data,
       getitem_key m "title" = Ok t
       /\ In (Info "Latest Milestone: %s" [t]) out
       /\ fst (_get (self s) milestones_request w) = Ok resp
       /\ decoded resp = Ok data
       /\ getitem_pos data 0 = Ok m.
Proof.
  unfold latest_milestone; cbv zeta. intros H.
  step H response.
  apply requests_get_inv in Hresponse as (Hs & Hw & Hg & w & Hr).
  step H data. step H n. step H u0. step H head0. step H title.
  step H u1. step H head1.
  apply done_ok in H as (-> & -> & ->).
  rewrite !sent_app, !warned_app, Hs, Hw.
  repeat split; auto.
  exists title, response, w, data. repeat split; auto; try congruence.
  apply in_or_app; right; cbn; tauto.
Qed.

(** *** Sets of strings *)

Lemma py_eq_str (v : json) (u : string) :
  py_eq v (JStr u) = true <-> v = JStr u.
Proof.
  destruct v; cbn; try (split; [discriminate | discriminate]).
  rewrite String.eqb_eq. split; congruence.
Qed.

Lemma str_py_eq (u : string) (w : json) :
  py_eq (JStr u) w = true <-> w = JStr u.
Proof.
  destruct w; cbn; try (split; [discriminate | discriminate]).
  rewrite String.eqb_eq. split; congruence.
Qed.

Lemma member_str (u : string) (l : list json) :
  member (JStr u) l = true <-> In (JStr u) l.
Proof.
  unfold member. rewrite existsb_exists. split.
  - intros (w & Hin & Heq). apply str_py_eq in Heq. now subst.
  - intros Hin. exists (JStr u). split; [exact Hin |]. now apply str_py_eq.
Qed.

Lemma in_py_set (u : string) (l r : list json) :
  py_set l = Ok r -> (In (JStr u) r <-> In (JStr u) l).
Proof.
  revert r; induction l as [| v l IH]; intros r H.
  - injection H as <-. reflexivity.
  - assert (Hcons : exists r0, py_set l = Ok r0
                      /\ r = v :: filter (fun w => negb (py_eq v w)) r0).
    { destruct v; cbn in H; try discriminate H;
        destruct (py_set l) as [r0 |]; try discriminate H;
        injection H as <-; eauto. }
    destruct Hcons as (r0 & Hr0 & ->).
    specialize (IH r0 Hr0). cbn [In]. rewrite filter_In, IH.
    rewrite negb_true_iff.
    destruct (py_eq v (JStr u)) eqn:Heq.
    + apply py_eq_str in Heq. subst v. split; auto.
    + split; [intros [H1 | [H1 _]]; auto | intros [H1 | H1]; auto].
Qed.

Lemma in_union (u : string) (a b : list json) :
  In (JStr u) (union a b) <-> In (JStr u) a \/ In (JStr u) b.
Proof.
  unfold union. rewrite in_app_iff, filter_In, negb_true_iff.
  destruct (member (JStr u) a) eqn:Hm.
  - apply member_str in Hm. tauto.
  - split; [tauto |]. intros [H | H]; auto.
Qed.

Lemma in_difference (u : string) (a b : list json) :
  In (JStr u) (difference a b) <-> In (JStr u) a /\ ~ In (JStr u) b.
Proof.
  unfold difference. rewrite filter_In, negb_true_iff.
  destruct (member (JStr u) b) eqn:Hm.
  - apply member_str in Hm. split; [intros [_ H]; discriminate | tauto].
  - assert (~ In (JStr u) b)
      by (intros Hin; apply member_str in Hin; congruence).
    tauto.
Qed.

Lemma warn_each_run (diff_pr : list json) (s : machine) :
  warn_each diff_pr s
  = (Ok tt, map (fun d => Warning "Pull request not labeled: %s" [d]) diff_pr,
     s).
Proof.
  induction diff_pr as [| d rest IH]; [reflexivity |].
  cbn [warn_each map]. unfold seq, emit. now rewrite IH.
Qed.

Lemma warned_warnings (l : list json) :
  warned (map (fun d => Warning "Pull request not labeled: %s" [d]) l) = l.
Proof.
  induction l as [| d l IH]; [reflexivity |].
  cbn [map]. unfold warned in *. cbn [flat_map app]. now rewrite IH.
Qed.

Lemma written_warnings (l : list json) :
  written (map (fun d => Warning "Pull request not labeled: %s" [d]) l) = [].
Proof. induction l as [| d l IH]; [reflexivity | exact IH]. Qed.

Lemma sent_warnings (l : list json) :
  sent (map (fun d => Warning "Pull request not labeled: %s" [d]) l) = [].
Proof. induction l as [| d l IH]; [reflexivity | exact IH]. Qed.

Lemma labelled_ok (milestone : json) (label : string) (lines : list string)
      (changelog_pr : list json) (s s' : machine)
      (acc : list string * list json) (out : list output) :
  labelled repr_of milestone label lines changelog_pr s = (Ok acc, out, s') ->
  exists t resp w,
    getitem_key milestone "title" = Ok t
    /\ sent out = [search_request repr_of t label]
    /\ warned out = []
    /\ _get (self s') = _get (self s)
    /\ fst (_get (self s) (search_request repr_of t label) w) = Ok resp
    /\ fst acc = lines ++ section_of repr_of label resp
    /\ forall u, In (JStr u) (snd acc)
                 <-> In (JStr u) changelog_pr \/ In (JStr u) (urls_of resp).
Proof.
  unfold labelled. intros H.
  step H t. step H pulls.
  apply search_ok in Hpulls as (Hs & Hw & Hg & resp & w & Hr & Hd & _).
  step H items.
  exists t, resp, w.
  unfold urls_of, section_of. rewrite Hd, Hitems.
  destruct (py_bool items).
  - cbv zeta in H.
    step H xs. step H urls. step H found. step H items'. step H xs'.
    step H new_lines.
    apply done_ok in H as (-> & -> & ->).
    assert (items' = items) by congruence. subst items'.
    assert (xs' = xs) by congruence. subst xs'.
    rewrite Hxs, Hurls, Hnew_lines.
    rewrite !app_nil_r. cbn [fst snd].
    repeat split; auto.
    + now rewrite <- app_assoc.
    + rewrite in_union, (@in_py_set u _ _ Hfound). tauto.
    + rewrite in_union, (@in_py_set u _ _ Hfound). tauto.
  - apply done_ok in H as (-> & -> & ->).
    rewrite !app_nil_r. cbn [fst snd].
    repeat split; auto; cbn; tauto.
Qed.

Lemma for_labels_ok (milestone t : json) (labels : list string) :
  getitem_key milestone "title" = Ok t ->
  forall (lines : list string) (changelog_pr : list json) (s s' : machine)
         (acc : list string * list json) (out : list output),
    for_labels repr_of milestone labels lines changelog_pr s
    = (Ok acc, out, s') ->
    sent out = map (search_request repr_of t) labels
    /\ warned out = []
    /\ _get (self s') = _get (self s)
    /\ (exists extra, fst acc = lines ++ extra)
    /\ forall serve, answers (_get (self s)) serve ->
       fst acc
       = lines
           ++ flat_map
                (fun label =>
                   section_of repr_of label
                              (serve (search_request repr_of t label)))
                labels
       /\ forall u,
            In (JStr u) (snd acc)
            <-> In (JStr u) changelog_pr
                \/ exists label,
                     In label labels
                     /\ In (JStr u)
                           (urls_of (serve (search_request repr_of t label))).
Proof.
  intros Ht. induction labels as [| label labels IH];
    intros lines changelog_pr s s' acc out H; cbn [for_labels] in H.
  - apply done_ok in H as (-> & -> & ->). cbn.
    repeat split; auto.
    + exists []. now rewrite app_nil_r.
    + now rewrite app_nil_r.
    + intros [Hin | (l & [] & _)]. exact Hin.
  - step H acc1.
    apply labelled_ok in Hacc1
      as (t' & resp & w & Ht' & Hs1 & Hw1 & Hg1 & Hr1 & Hl1 & Hu1).
    assert (t' = t) by congruence. subst t'.
    apply IH in H as (Hs2 & Hw2 & Hg2 & (extra2 & Hl2) & Hu2).
    rewrite sent_app, warned_app, Hs1, Hw1, Hs2, Hw2. cbn [map app].
    split; [reflexivity | split; [reflexivity | split; [congruence |]]].
    split.
    { exists (section_of repr_of label resp ++ extra2).
      rewrite Hl2, Hl1. now rewrite app_assoc. }
    intros serve Hans.
    assert (Hans' : answers (_get (self s0)) serve) by (rewrite Hg1; exact Hans).
    assert (Hresp : serve (search_request repr_of t label) = resp).
    { specialize (Hans (search_request repr_of t label) w).
      rewrite Hr1 in Hans. now injection Hans as ->. }
    destruct (Hu2 serve Hans') as [Hlines Hurls].
    split.
    { rewrite Hlines, Hl1. cbn [flat_map]. rewrite Hresp.
      now rewrite app_assoc. }
    intros u. rewrite (Hurls u), (Hu1 u). split.
    + intros [[Hin | Hin] | (l & Hl & Hin)].
      * left; exact Hin.
      * right. exists label. split; [left; reflexivity |].
        rewrite Hresp. exact Hin.
      * right. exists l. split; [right; exact Hl | exact Hin].
    + intros [Hin | (l & [<- | Hl] & Hin)].
      * left; left; exact Hin.
      * left; right. rewrite Hresp in Hin. exact Hin.
      * right. exists l. split; assumption.
Qed.

Lemma falsy_iter (items : json) (xs : list json) :
  py_bool items = false -> py_iter items = Ok xs -> xs = [].
Proof.
  destruct items as [| b | n | u | l | d]; cbn; intros Hb Hi;
    try discriminate Hi; injection Hi as <-.
  - apply negb_false_iff, String.eqb_eq in Hb. now subst.
  - apply negb_false_iff, Nat.eqb_eq in Hb. now destruct l.
  - apply negb_false_iff, Nat.eqb_eq in Hb. now destruct d.
Qed.

(** Everything a run that ended well has gone through. *)
Lemma main_ok (s s' : machine) (out : list output) :
  main repr_of iso_date set_order s = (Ok tt, out, s') ->
  exists milestone t title today previous_tag extra number number_text,
    getitem_key milestone "title" = Ok t
    /\ In (Info "Latest Milestone: %s" [t]) out
    /\ release_of milestone = Ok title
    /\ getitem_key milestone "number" = Ok number
    /\ percent_d number = Ok number_text
    /\ sent out = planned repr_of t
    /\ written out
       = [(String.append "changelog." (String.append number_text ".md"),
           concat_with newline
             (String.append "## "
                (String.append title
                   (String.append " (" (String.append today ")")))
              :: String.append "[View detailed changelog]("
                   (String.append
                      (String.append
                         "https://github.com/spinalcordtoolbox/spinalcordtoolbox/compare/"
                         (String.append (py_str repr_of previous_tag)
                            (String.append "..." title)))
                      ")")
              :: extra))]
    /\ (exists resp w data,
          fst (_get (self s) milestones_request w) = Ok resp
          /\ decoded resp = Ok data
          /\ getitem_pos data 0 = Ok milestone)
    /\ forall serve,
         answers (_get (self s)) serve ->
         extra
         = flat_map
             (fun label =>
                section_of repr_of label
                           (serve (search_request repr_of t label)))
             ["bug"; "enhancement"; "feature"; "documentation";
              "installation"; "testing"]
         /\ exists diff_pr,
           warned out = set_order diff_pr
           /\ forall u,
                In (JStr u) diff_pr
                <-> In (JStr u)
                       (urls_of (serve (search_request repr_of t "")))
                    /\ forall label,
                         In label ["bug"; "enhancement"; "feature";
                                   "documentation"; "installation"; "testing"]
                         -> ~ In (JStr u)
                              (urls_of
                                 (serve (search_request repr_of t label))).
Proof.
  unfold main. intros H.
  step H milestone.
  pose proof (nothing_latest_milestone s) as Hq1.
  rewrite Hmilestone in Hq1; cbn [fst snd] in Hq1.
  apply latest_milestone_ok in Hmilestone
    as (Hs1 & Hw1 & Hg1 & t & resp & w & data & Ht & Hlog & Hr & Hd & Hm).
  step H title.
  apply seq_ok in H as (today & o3 & s3 & o4 & Htoday & H & ->).
  unfold date_today in Htoday. injection Htoday as <- <- <-.
  cbv zeta in H.
  step H link.
  pose proof (nothing_detailed_changelog (JStr title) s0) as Hq2.
  rewrite Hlink in Hq2; cbn [fst snd] in Hq2.
  apply detailed_changelog_ok in Hlink as (Hs2 & Hw2 & Hg2 & prev & ->).
  step H acc.
  match type of Hacc with
  | for_labels _ _ ?ls ?ln ?pr ?st = _ =>
      pose proof (@nothing_for_labels milestone ls ln pr st) as Hq3
  end.
  rewrite Hacc in Hq3; cbn [fst snd] in Hq3.
  apply (@for_labels_ok milestone t _ Ht) in Hacc as (Hs3 & Hw3 & Hg3 & (extra & Hl3) & Hu3).
  step H u0. step H t'. step H pulls.
  pose proof (nothing_search t' "" s2) as Hq4.
  rewrite Hpulls in Hq4; cbn [fst snd] in Hq4.
  apply search_ok in Hpulls as (Hs4 & Hw4 & Hg4 & resp4 & w4 & Hr4 & Hd4 & d & ->).
  assert (t' = t) by congruence. subst t'.
  step H items. step H xs. step H urls. step H all_pr.
  apply seq_ok in H as (u1 & o5 & s5 & o6 & Hwarn & H & ->).
  rewrite warn_each_run in Hwarn. injection Hwarn as <- <-.
  step H number. step H number_text. step H u2. step H u3.
  apply emit_ok in H as (-> & ->).
  exists milestone, t, title, (iso_date (clock (world s0))), prev, extra,
    number, number_text.
  rewrite !sent_app, !warned_app, !written_app.
  rewrite Hs1, Hs2, Hs3, Hs4, Hw1, Hw2, Hw3, Hw4, Hq1, Hq2, Hq3, Hq4.
  rewrite sent_warnings, warned_warnings, written_warnings.
  cbn [py_str] in *.
  split; [exact Ht |].
  split; [apply in_or_app; left; exact Hlog |].
  split; [exact Htitle |].
  split; [exact Hnumber |].
  split; [exact Hnumber_text |].
  split; [reflexivity |].
  split; [rewrite Hl3; reflexivity |].
  split; [exists resp, w, data; auto |].
  - intros serve Hans.
    assert (Hans3 : answers (_get (self s1)) serve) by (rewrite Hg2, Hg1; exact Hans).
    destruct (Hu3 serve Hans3) as [Hlines3 Hurls3].
    split.
    { rewrite Hlines3 in Hl3. cbn [app] in Hl3.
      injection Hl3 as Hl3. symmetry; exact Hl3. }
    exists (difference all_pr (snd acc)). split; [now rewrite !app_nil_r |].
    intros u. rewrite in_difference, (@in_py_set u _ _ Hall_pr).
    rewrite (Hurls3 u).
    assert (Hurls4 : urls_of (serve (search_request repr_of t "")) = urls).
    { assert (Hans4 : answers (_get (self s2)) serve)
        by (rewrite Hg3, Hg2, Hg1; exact Hans).
      specialize (Hans4 (search_request repr_of t "") w4).
      rewrite Hr4 in Hans4. injection Hans4 as <-.
      unfold urls_of. rewrite Hd4.
      cbn [getitem_key dict_get] in Hitems |- *.
      destruct (lookup "items" d); [| discriminate Hitems].
      injection Hitems as ->.
      destruct (py_bool items) eqn:Hb.
      - now rewrite Hxs, Hurls.
      - apply (falsy_iter _ Hb) in Hxs. subst xs.
        cbn in Hurls. now injection Hurls as <-. }
    rewrite Hurls4. split.
    + intros [Hin Hnot]. split; [exact Hin |].
      intros label Hl Hin'. apply Hnot. right. eauto.
    + intros [Hin Hnot]. split; [exact Hin |].
      intros [[] | (label & Hl & Hin')]. eapply Hnot; eauto.
Qed.

(** X16.  The requests of a run that ends well.  They are nine, in this
    order: the milestones, the releases, one search for each of the six
    labels and one search without label; and all the searches are about
    the title of one milestone, the one the script logs as the latest. *)
Theorem requests_of_a_good_run (s : machine) :
  fst (fst (main repr_of iso_date set_order s)) = Ok tt ->
  exists t,
    In (Info "Latest Milestone: %s" [t])
       (snd (fst (main repr_of iso_date set_order s)))
    /\ sent (snd (fst (main repr_of iso_date set_order s)))
       = [milestones_request; releases_request;
          search_request repr_of t "bug";
          search_request repr_of t "enhancement";
          search_request repr_of t "feature";
          search_request repr_of t "documentation";
          search_request repr_of t "installation";
          search_request repr_of t "testing";
          search_request repr_of t ""].
Proof.
  destruct (main repr_of iso_date set_order s) as [[o out] s'] eqn:Hmain.
  cbn [fst snd]. intros ->.
  apply main_ok in Hmain
    as (m & t & title & today & prev & extra & n & nt & _ & Hlog & _ & _ & _
        & Hsent & _).
  exists t. split; [exact Hlog | exact Hsent].
Qed.


(** X18.  The pull requests warned about.  Against a server whose answers
    do not change during the run, a run that ends well warns about a
    pull request, by its address, exactly when the search without label
    lists it and none of the six searches by label does. *)
Theorem unlabelled_are_warned (serve : Request -> Response) (s : machine) :
  answers (_get (self s)) serve ->
  (forall l, Permutation (set_order l) l) ->
  fst (fst (main repr_of iso_date set_order s)) = Ok tt ->
  exists data milestone t,
    decoded (serve milestones_request) = Ok data
    /\ getitem_pos data 0 = Ok milestone
    /\ getitem_key milestone "title" = Ok t
    /\ forall u,
         In (JStr u) (warned (snd (fst (main repr_of iso_date set_order s))))
         <-> In (JStr u) (urls_of (serve (search_request repr_of t "")))
             /\ forall label,
                  In label ["bug"; "enhancement"; "feature"; "documentation";
                            "installation"; "testing"] ->
                  ~ In (JStr u)
                       (urls_of (serve (search_request repr_of t label))).
Proof.
  intros Hans Hperm.
  destruct (main repr_of iso_date set_order s) as [[o out] s'] eqn:Hmain.
  cbn [fst snd]. intros ->.
  apply main_ok in Hmain
    as (m & t & title & today & prev & extra & n & nt & Ht & _ & _ & _
        & _ & _ & _ & (resp & w & data & Hr & Hd & Hm) & Hwarn).
  destruct (Hwarn serve Hans) as (_ & diff_pr & -> & Hdiff).
  pose proof (Hans milestones_request w) as Hserve.
  rewrite Hr in Hserve. injection Hserve as ->.
  exists data, m, t.
  split; [exact Hd | split; [exact Hm | split; [exact Ht |]]].
  intros u. rewrite <- Hdiff. split; intros Hin.
  - eapply Permutation_in; [apply Hperm | exact Hin].
  - eapply Permutation_in; [apply Permutation_sym, Hperm | exact Hin].
Qed.

(** X19.  The sections of the changelog.  Against a server whose answers
    do not change during the run, the file of a run that ends well is
    made of the heading, the link and, for each of the six labels in
    turn, the section of the label: nothing when its search has no item,
    else the label in capitals between blank lines, and the line of each
    item of the search in the order of the answer. *)
Theorem sections_of_the_changelog (serve : Request -> Response)
        (s : machine) :
  answers (_get (self s)) serve ->
  fst (fst (main repr_of iso_date set_order s)) = Ok tt ->
  exists t title today previous_tag number_text,
    In (Info "Latest Milestone: %s" [t])
       (snd (fst (main repr_of iso_date set_order s)))
    /\ written (snd (fst (main repr_of iso_date set_order s)))
       = [(String.append "changelog." (String.append number_text ".md"),
           concat_with newline
             (String.append "## "
                (String.append title
                   (String.append " (" (String.append today ")")))
              :: String.append "[View detailed changelog]("
                   (String.append
                      (String.append
                         "https://github.com/spinalcordtoolbox/spinalcordtoolbox/compare/"
                         (String.append (py_str repr_of previous_tag)
                            (String.append "..." title)))
                      ")")
              :: flat_map
                   (fun label =>
                      section_of repr_of label
                                 (serve (search_request repr_of t label)))
                   ["bug"; "enhancement"; "feature"; "documentation";
                    "installation"; "testing"]))].
Proof.
  intros Hans.
  destruct (main repr_of iso_date set_order s) as [[o out] s'] eqn:Hmain.
  cbn [fst snd]. intros ->.
  apply main_ok in Hmain
    as (m & t & title & today & prev & extra & n & nt & _ & Hlog & _ & _ & _
        & _ & Hw & _ & Hserve).
  destruct (Hserve serve Hans) as (-> & _).
  exists t, title, today, prev, nt. split; [exact Hlog | exact Hw].
Qed.

(** X12.  No milestone to be found.  When the answer to the request for
    milestones is an empty list, [latest_milestone] logs that it found
    none and raises [IndexError]; when it is a dict, as the messages of
    error of GitHub are, it logs the number of its keys and raises
    [KeyError] for the key 0. *)
Theorem no_milestone (s s1 : machine) (resp : Response) (out : list output) :
  requests_get milestones_request s = (Ok resp, out, s1) ->
  (decoded resp = Ok (JList []) ->
   latest_milestone s
   = (Raise (IndexError "list index out of range"),
      out ++ [Info "Open milestones found %d" [JInt 0]], s1))
  /\ (forall d,
        decoded resp = Ok (JDict d) ->
        latest_milestone s
        = (Raise (Failure (KeyError (JInt 0))),
           out ++ [Info "Open milestones found %d"
                        [JInt (Z.of_nat (List.length d))]], s1)).
Proof.
  intros Hget. unfold latest_milestone; cbv zeta.
  change {| url := String.append API_URL "milestones"; params := [] |}
    with milestones_request.
  split; [intros Hd | intros d Hd];
    unfold seq at 1; rewrite Hget;
    unfold seq, pure, emit; rewrite Hd; reflexivity.
Qed.

End Driving.

(** ** Runs of the concrete setting *)

Module Runs.
Import Example.

(** The script's limiter under [burst]: three calls pass, the fourth
    waits nine seconds. *)
Example burst_traces :
  map (@trace unit nat string) (fst (run burst (script instant)))
  = [ [Recorded 0; Called tt];
      [Recorded 0; Called tt];
      [Recorded 0; Called tt];
      [Retired 0; Logged (waiting 9000); Slept 9000; Recorded 10000;
       Called tt] ].
Proof. reflexivity. Qed.

Example burst_final_deque :
  _requests (self (snd (run burst (script instant)))) = [0; 0; 10000].
Proof. reflexivity. Qed.

(** An exception of the wrapped operation comes out as it is, and the
    call has been recorded all the same. *)
Example failing_outcome :
  fst (fst (get tt failing)) = Raise (Failure "503")
  /\ _requests (self (snd (get tt failing))) = [0; 0; 10000].
Proof. split; reflexivity. Qed.

(** The bound of the windows is tight at their far end: the closed
    interval from 0 to 10000 ms holds four admissions of [burst]. *)
Example closed_window_boundary :
  stamps (fst (run burst (script instant))) = [0; 0; 0; 10000]
  /\ List.length
       (filter (fun t => (0 <=? t) && (t <=? 10000))
               (stamps (fst (run burst (script instant)))))
     = 4%nat.
Proof. split; reflexivity. Qed.

(** A wall clock set back by five seconds between two calls leaves the
    deque out of order. *)
Example clock_set_back :
  _requests (self (snd (run [(0, tt); (-5000, tt)] (script instant))))
  = [0; -5000].
Proof. reflexivity. Qed.

End Runs.

(** ** The claims at work on the concrete setting *)

Module Witness.
Import Example.

Lemma admission_bound_witness :
  Z.of_nat
    (List.length
       (filter (within (clock (world (snd (run hammer (script instant)))))
                       10000)
               (_requests (self (snd (run hammer (script instant)))))))
  <= 3
  /\ forall lo,
       count_in lo 10000 (stamps (fst (run hammer (script instant)))) <= 3.
Proof.
  apply (@admission_bound unit nat string nat instant 3 10000 midnight hammer).
  - lia.
  - intros a w; cbn; lia.
  - repeat constructor; cbn; lia.
Defined.

Lemma delay_correctness_witness :
  (slept (snd (fst (get tt full))) = [9000]
   /\ imposed (snd (fst (get tt full))) = 9000
   /\ recorded (snd (fst (get tt full))) = [10000])
  /\ (map (fun o => imposed (trace o)) (fst (run burst (script instant)))
      = [0; 0; 0; 9000]
      /\ stamps (fst (run burst (script instant))) = [0; 0; 0; 10000]).
Proof.
  split.
  - apply (proj1 (@delay_correctness unit nat string nat) tt full 0 [0; 0]).
    + reflexivity.
    + reflexivity.
    + cbn; lia.
  - apply (proj2 (@delay_correctness unit nat string nat)
                 instant midnight burst 1000).
    + lia.
    + reflexivity.
Defined.

Lemma pass_through_witness :
  1 <= _count (self failing)
  /\ exists tr s1,
       called tr = []
       /\ ext (world s1) = ext (world failing)
       /\ get tt failing
          = (fst (flaky tt (world s1)), tr ++ [Called tt],
             {| self := self s1; world := snd (flaky tt (world s1)) |}).
Proof.
  split.
  - cbn; lia.
  - apply (@pass_through unit nat string nat tt failing). cbn; lia.
Defined.

Lemma fifo_retirement_witness :
  retired (snd (fst (get tt full))) = [0]
  /\ imposed (snd (fst (get tt full))) = 9000
  /\ _requests (self (snd (get tt full)))
     = [0; 0] ++ [1000 + imposed (snd (fst (get tt full)))].
Proof.
  apply (@fifo_retirement unit nat string nat tt full 0 [0; 0]).
  - reflexivity.
  - cbn; lia.
Defined.

Lemma tracker_size_witness :
  Z.of_nat (List.length (_requests (self (snd (run hammer (script instant))))))
  = Z.min 5 3
  /\ Forall (fun o => retired (trace o) = []
                      /\ List.length (recorded (trace o)) = 1%nat)
            (firstn 3 (fst (run hammer (script instant))))
  /\ Forall (fun o => List.length (retired (trace o)) = 1%nat
                      /\ List.length (recorded (trace o)) = 1%nat)
            (skipn 3 (fst (run hammer (script instant)))).
Proof.
  apply (@tracker_size unit nat string nat instant 3 10000 midnight hammer).
  lia.
Defined.

Lemma same_arrivals_same_delays_witness :
  map (fun o => imposed (trace o))
      (fst (run paced (boot instant 3 10000 midnight)))
  = map (fun o => imposed (trace o))
        (fst (run eager (boot slow 3 10000 midnight))).
Proof.
  apply (@same_arrivals_same_delays unit nat string nat instant slow 3 10000
           midnight midnight paced eager).
  reflexivity.
Defined.

Lemma empty_deque_error_witness :
  (_requests (__init__ instant 0 10000) = []
   /\ get tt (elapse 0 misbuilt)
      = (Raise (IndexError "pop from an empty deque"), [],
         elapse 0 misbuilt))
  /\ Forall (fun o =>
               (retired (trace o) <> [] ->
                Z.of_nat (List.length (pending o)) = 3)
               /\ called (trace o) = [argument o])
            (fst (run hammer (script instant))).
Proof.
  split.
  - apply (proj1 (@empty_deque_error unit nat string nat)
                 instant 0 10000 midnight 0 tt).
    lia.
  - apply (proj2 (@empty_deque_error unit nat string nat)
                 instant 3 10000 midnight hammer).
    lia.
Defined.

Lemma deque_ordered_witness :
  ordered (script instant) /\ ordered (snd (run hammer (script instant))).
Proof.
  split.
  - apply (proj1 (@deque_ordered unit nat string nat)).
  - apply (proj2 (@deque_ordered unit nat string nat) (script instant) hammer).
    + apply (proj1 (@deque_ordered unit nat string nat)).
    + intros a w; cbn; lia.
    + repeat constructor; cbn; lia.
Defined.

(** C8, as the specification words it: the message would read
    ["waiting <seconds> so as not to exceed the rate limit."].  The call
    of [full] is delayed by nine seconds and logs one line; that line does
    not end the way the specification says, whatever stands before the
    ending. *)
Lemma log_form_counterexample :
  map getMessage (logged (snd (fst (get tt full))))
  = ["Waiting 9.000s so as to not go over the API rate limit"]
  /\ ~ (exists head secs,
          "Waiting 9.000s so as to not go over the API rate limit"
          = String.append head
              (String.append secs " so as not to exceed the rate limit.")).
Proof.
  split; [reflexivity |].
  intros (head & secs & Heq).
  apply (f_equal last_char) in Heq.
  assert (Hlast : forall x y, y <> EmptyString ->
                    last_char (String.append x y) = last_char y).
  { induction x as [| c x IH]; intros y Hy; [reflexivity |].
    cbn [String.append last_char]. rewrite IH by exact Hy.
    destruct (String.append x y) eqn:Hxy; [| reflexivity].
    destruct x; cbn in Hxy; [congruence | discriminate]. }
  rewrite Hlast in Heq.
  - rewrite Hlast in Heq by discriminate. cbn in Heq. discriminate.
  - destruct secs; discriminate.
Qed.

End Witness.

(** ** The further facts at work *)

Module Evidence.
Import Example GitHub.


Lemma delay_within_period_witness :
  Forall (fun o => 0 <= imposed (trace o) <= Z.max 0 10000)
         (fst (run hammer (script instant))).
Proof.
  apply (@delay_within_period unit nat string nat (script instant) hammer).
  - split; constructor.
  - intros a w; cbn; lia.
  - repeat constructor; cbn; lia.
Defined.

Lemma template_named : Forall2 named template_labels template_names.
Proof. repeat constructor. Defined.

Lemma sct_labels_filtered_witness :
  get_sct_function_from_label (JList template_labels)
  = Ok [JStr "sct_register_to_template"; JStr "sct_warp_template"].
Proof. apply (sct_labels_filtered template_named). Defined.

Lemma compatibility_warned_witness :
  check_compatibility (JList template_labels)
  = Ok "**WARNING: Breaks compatibility with previous versions of SCT.** ".
Proof. apply (compatibility_warned template_named). Defined.

Lemma labels_raise_alike_witness :
  check_compatibility (JList [label "bug"; JInt 3])
  = Raise (Failure TypeError).
Proof.
  apply (proj1 (labels_raise_alike (JList [label "bug"; JInt 3])
                  (Failure TypeError))).
  reflexivity.
Defined.

Lemma label_without_name_witness :
  get_sct_function_from_label
    (JList ([label "sct_maths"] ++ JDict [("id", JInt 7)] :: [label "bug"]))
  = Raise (Failure (KeyError (JStr "name")))
  /\ check_compatibility
       (JList ([label "sct_maths"] ++ JDict [("id", JInt 7)] :: [label "bug"]))
     = Raise (Failure (KeyError (JStr "name"))).
Proof.
  apply (@label_without_name [label "sct_maths"] ["sct_maths"]
           [("id", JInt 7)] [label "bug"]).
  - repeat constructor.
  - reflexivity.
Defined.


Lemma requests_of_a_good_run_witness :
  exists t,
    In (Info "Latest Milestone: %s" [t]) (snd (fst (run_main github)))
    /\ sent (snd (fst (run_main github)))
       = [milestones_request; releases_request;
          search_request repr_of t "bug";
          search_request repr_of t "enhancement";
          search_request repr_of t "feature";
          search_request repr_of t "documentation";
          search_request repr_of t "installation";
          search_request repr_of t "testing";
          search_request repr_of t ""].
Proof.
  apply (@requests_of_a_good_run nat repr_of iso_date set_order (start github)).
  reflexivity.
Defined.


Lemma unlabelled_are_warned_witness :
  exists data milestone t,
    decoded (serve milestones_request) = Ok data
    /\ getitem_pos data 0 = Ok milestone
    /\ getitem_key milestone "title" = Ok t
    /\ forall u,
         In (JStr u) (warned (snd (fst (run_main github))))
         <-> In (JStr u) (urls_of (serve (search_request repr_of t "")))
             /\ forall label,
                  In label ["bug"; "enhancement"; "feature"; "documentation";
                            "installation"; "testing"] ->
                  ~ In (JStr u)
                       (urls_of (serve (search_request repr_of t label))).
Proof.
  apply (@unlabelled_are_warned nat repr_of iso_date set_order serve
           (start github)).
  - intros r w. reflexivity.
  - intros l. apply Permutation_sym, Permutation_rev.
  - reflexivity.
Defined.

Lemma sections_of_the_changelog_witness :
  exists t title today previous_tag number_text,
    In (Info "Latest Milestone: %s" [t]) (snd (fst (run_main github)))
    /\ written (snd (fst (run_main github)))
       = [(String.append "changelog." (String.append number_text ".md"),
           concat_with newline
             (String.append "## "
                (String.append title
                   (String.append " (" (String.append today ")")))
              :: String.append "[View detailed changelog]("
                   (String.append
                      (String.append
                         "https://github.com/spinalcordtoolbox/spinalcordtoolbox/compare/"
                         (String.append (py_str repr_of previous_tag)
                            (String.append "..." title)))
                      ")")
              :: flat_map
                   (fun label =>
                      section_of repr_of label
                                 (serve (search_request repr_of t label)))
                   ["bug"; "enhancement"; "feature"; "documentation";
                    "installation"; "testing"]))].
Proof.
  apply (@sections_of_the_changelog nat repr_of iso_date set_order serve
           (start github)).
  - intros r w. reflexivity.
  - reflexivity.
Defined.

Lemma no_milestone_witness :
  latest_milestone (start idle)
  = (Raise (IndexError "list index out of range"),
     [Net (Recorded 0); Net (Called milestones_request)]
       ++ [Info "Open milestones found %d" [JInt 0]],
     snd (requests_get milestones_request (start idle))).
Proof.
  apply (proj1 (@no_milestone nat (start idle)
                  (snd (requests_get milestones_request (start idle)))
                  {| decoded := Ok (JList []) |}
                  [Net (Recorded 0); Net (Called milestones_request)]
                  eq_refl)).
  reflexivity.
Defined.

Lemma line_of_a_pull_request_witness :
  item_line repr_of template
  = Ok (String.append " - **"
          (String.append "sct_register_to_template,sct_warp_template"
             (String.append ":** "
                (String.append "New default template"
                   (String.append ". "
                      (String.append breaks_compatibility
                         (String.append "[View pull request]("
                            (String.append
                               "https://github.com/spinalcordtoolbox/spinalcordtoolbox/pull/102"
                               ")")))))))).
Proof.
  apply (@line_of_a_pull_request repr_of template template_labels
           template_names (JStr "New default template")
           (JStr "https://github.com/spinalcordtoolbox/spinalcordtoolbox/pull/102")).
  - reflexivity.
  - exact template_named.
  - reflexivity.
  - reflexivity.
Defined.

Lemma plain_line_of_a_pull_request_witness :
  item_line repr_of readme
  = Ok (String.append " - "
          (String.append "Update README"
             (String.append ". "
                (String.append ""
                   (String.append "[View pull request]("
                      (String.append
                         "https://github.com/spinalcordtoolbox/spinalcordtoolbox/pull/103"
                         ")")))))).
Proof.
  apply (@plain_line_of_a_pull_request repr_of readme [] []
           (JStr "Update README")
           (JStr "https://github.com/spinalcordtoolbox/spinalcordtoolbox/pull/103")).
  - reflexivity.
  - constructor.
  - reflexivity.
  - reflexivity.
  - reflexivity.
  - reflexivity.
Defined.

Lemma release_is_the_last_word_witness :
  release_of milestone = Ok "v5.0.1"
  /\ release_of (JDict [("title", JStr "v5.0.1")]) = Ok "v5.0.1"
  /\ release_of (JDict [("title", JStr "  ")])
     = Raise (IndexError "list index out of range").
Proof.
  split; [| split].
  - apply (proj1 (release_is_the_last_word milestone) "Release" " "%char
                 "v5.0.1"); try reflexivity. discriminate.
  - apply (proj1 (proj2 (release_is_the_last_word
                           (JDict [("title", JStr "v5.0.1")]))) "v5.0.1");
      try reflexivity. discriminate.
  - apply (proj2 (proj2 (release_is_the_last_word
                           (JDict [("title", JStr "  ")]))) "  ");
      reflexivity.
Defined.

End Evidence.
